(** * Seh-AI-App: the save pipeline, session synchronisation and camera gating

    A shallow embedding of the handlers of [src/app/results.tsx],
    [src/app/(tabs)/camera.tsx] and of [syncSupabaseAuth]
    (AuthContext, [src/unnamed/part_000]).

    The handlers are asynchronous JavaScript functions whose only
    observable behaviour is the sequence of calls they make on the
    vendor SDKs and on React state setters.  Each handler is written in a
    small monad that threads the component state, may throw, and records
    the calls it makes; what the outside answers to each call is read
    from a [world].  Console output is not modelled. *)

From Stdlib Require Import String Ascii List Bool ZArith QArith Qround Lia Lqa.
Import ListNotations.
Close Scope Q_scope.
Open Scope string_scope.
Open Scope list_scope.

(** ** JavaScript numbers and values *)

Module JS.

(** A Number: the two infinities, NaN, or a finite value.  Every finite
    double is a rational, and [Math.round] is exact on doubles, so finite
    values are carried as rationals.  The two zeros are not told apart:
    the code only ever passes a rounded value through [|| 0], which sends
    both to [0]. *)
Inductive number : Type :=
| NaN
| PosInf
| NegInf
| Fin (q : Q).

Inductive value : Type :=
| VUndefined
| VNull
| VBool (b : bool)
| VNumber (n : number)
| VString (s : string).

(** [Math.round]: the integer nearest to the argument, ties towards
    +Infinity; NaN and the infinities are returned unchanged. *)
Definition Math_round (n : number) : number :=
  match n with
  | Fin q => Fin (inject_Z (Qfloor (q + (1 # 2))%Q))
  | _ => n
  end.

(** ToBoolean on a Number: NaN and zero are falsy. *)
Definition truthy (n : number) : bool :=
  match n with
  | NaN => false
  | Fin q => negb (Qeq_bool q 0%Q)
  | _ => true
  end.

(** [n || 0] on Numbers. *)
Definition or_zero (n : number) : number :=
  if truthy n then n else Fin 0%Q.

(** [Number.isInteger]. *)
Definition isInteger (n : number) : bool :=
  match n with
  | Fin q => Qeq_bool q (inject_Z (Qfloor q))
  | _ => false
  end.

Definition isFinite (n : number) : bool :=
  match n with
  | Fin _ => true
  | _ => false
  end.

Section ToNumber.

(** The runtime's conversion of a string to a Number (StringToNumber
    of the language definition): it parses a numeric literal and
    rounds it to a double. *)
Variable StringToNumber : string -> number.

(** [Number(v)]. *)
Definition Number (v : value) : number :=
  match v with
  | VUndefined => NaN
  | VNull => Fin 0
  | VBool b => if b then Fin 1 else Fin 0
  | VNumber n => n
  | VString s => StringToNumber s
  end.

(** [Math.round(Number(v)) || 0], the expression both write paths
    apply to each macro. *)
Definition round_or_zero (v : value) : number :=
  or_zero (Math_round (Number v)).

End ToNumber.

End JS.

(** ** Completions, errors and the handler monad *)

(** A thrown value, seen through the only thing the handlers read from it:
    [err?.message]. *)
Record error : Type := Error { message : option string }.

Inductive completion (A : Type) : Type :=
| Normal (a : A)
| Throw (e : error).
Arguments Normal {A} a.
Arguments Throw {A} e.

(** ** Data of the application *)

Record Session : Type := mkSession {
  access_token : string;
  refresh_token : string
}.

Record User : Type := mkUser { id : string }.

Record FoodAnalysisResult : Type := mkResult {
  name : string;
  calories : JS.value;
  protein : JS.value;
  carbs : JS.value;
  fat : JS.value;
  description : string
}.

(** The argument object of [supabase.rpc('insert_meal', ...)]. *)
Record rpc_params : Type := mkParams {
  p_name : string;
  p_thumbnail_url : string;
  p_calories : JS.number;
  p_protein : JS.number;
  p_carbs : JS.number;
  p_fat : JS.number
}.

(** The row handed to [supabase.from('meals').insert(...)]. *)
Record meal_row : Type := mkRow {
  row_name : string;
  row_user_id : string;
  row_calories : JS.number;
  row_protein : JS.number;
  row_carbs : JS.number;
  row_fat : JS.number;
  row_image_url : string;
  row_meal_time : string
}.

Record image : Type := mkImage {
  uri : string;
  width : Z;
  height : Z
}.

Inductive haptic : Type :=
| ImpactLight
| ImpactMedium
| NotifySuccess
| NotifyError.

(** The calls a handler makes, in the order it makes them. *)
Inductive event : Type :=
| SetIsSaving (b : bool)
| SetIsCapturing (b : bool)
| SetIsAnalyzing (b : bool)
| SetHasCameraPermission (b : bool)
| SetHasMediaLibraryPermission (b : bool)
| SetHasGalleryPermission (b : bool)
| SetCapturedImage (img : option image)
| Haptic (h : haptic)
| AlertShown (title text : string)
| GetSession
| SetSession (access refresh : string)
| UploadThumbnail (fileUri : string)
| GetUser
| Rpc (fn : string) (args : rpc_params)
| TableInsert (table : string) (row : meal_row)
| RouterReplace (path : string)
| RouterPush (path : string) (imageUri : string)
| RequestCameraPermission
| MediaLibraryRequestPermissions
| ImagePickerRequestPermissions
| LaunchImageLibrary
| TakePictureAsync
| ProcessImageForAI (imgUri : string).

(** ** The monad *)

Section Monad.

Context {St : Type}.

Record outcome (A : Type) : Type := mkOutcome {
  res : completion A;
  final : St;
  events : list event
}.
Arguments mkOutcome {A}.
Arguments res {A}.
Arguments final {A}.
Arguments events {A}.

Definition M (A : Type) : Type := St -> outcome A.

Definition ret {A} (a : A) : M A :=
  fun st => mkOutcome (Normal a) st [].

Definition throw {A} (e : error) : M A :=
  fun st => mkOutcome (Throw e) st [].

Definition bind {A B} (m : M A) (k : A -> M B) : M B :=
  fun st =>
    let o := m st in
    match res o with
    | Normal a =>
        let o' := k a (final o) in
        mkOutcome (res o') (final o') (events o ++ events o')
    | Throw e => mkOutcome (Throw e) (final o) (events o)
    end.

(** [try { m } catch (e) { h e }]. *)
Definition try_catch {A} (m : M A) (h : error -> M A) : M A :=
  fun st =>
    let o := m st in
    match res o with
    | Normal a => o
    | Throw e =>
        let o' := h e (final o) in
        mkOutcome (res o') (final o') (events o ++ events o')
    end.

(** A call whose effect is only that it was made. *)
Definition emit (ev : event) : M unit :=
  fun st => mkOutcome (Normal tt) st [ev].

(** An awaited call: it is recorded, then it resolves or rejects as the
    outside decides. *)
Definition call {A} (ev : event) (answer : completion A) : M A :=
  fun st => mkOutcome answer st [ev].

Definition get : M St :=
  fun st => mkOutcome (Normal st) st [].

Definition modify (f : St -> St) : M unit :=
  fun st => mkOutcome (Normal tt) (f st) [].

End Monad.

Arguments outcome : clear implicits.
Arguments M : clear implicits.
Arguments mkOutcome {St A}.
Arguments res {St A}.
Arguments final {St A}.
Arguments events {St A}.

Declare Scope handler_scope.
Delimit Scope handler_scope with handler.
Notation "x <- m ;; k" := (bind m (fun x => k))
  (at level 100, m at next level, right associativity) : handler_scope.
Notation "m ;; k" := (bind m (fun _ => k))
  (at level 100, right associativity) : handler_scope.
Open Scope handler_scope.

(** ** Calls on the backend SDK *)

(** What a supabase call that reports failure in its return value can do:
    resolve without error, resolve with [error] set, or reject. *)
Inductive sdk_answer : Type :=
| Ok
| Failed (e : error)
| Rejected (e : error).

(** An awaited SDK call; the value is the [error] field of what it
    resolves with ([None] for [null]). *)
Definition sdk_call {St} (ev : event) (a : sdk_answer) : M St (option error) :=
  call ev
    match a with
    | Ok => Normal None
    | Failed e => Normal (Some e)
    | Rejected e => Throw e
    end.

(** ** Session synchronisation (AuthContext) *)

Module Auth.

(** The two module-level client handles.  [main_session] is what the main
    client holds, [db_session] what the client of [@/services/db] holds. *)
Record clients : Type := mkClients {
  main_session : option Session;
  db_session : option Session
}.

(** What the SDK does during one call of [syncSupabaseAuth]. *)
Record world : Type := mkWorld {
  (** [mainSupabase.auth.getSession()] rejects with this error, or
      resolves with the session the main client holds. *)
  getSession_rejects : option error;
  (** [dbSupabase.auth.setSession(...)]. *)
  setSession_answer : sdk_answer;
  (** The session the db client holds once [setSession] has run.  That
      is the SDK's to decide: the pair it was given, a refreshed pair,
      or none. *)
  db_after_setSession : option Session
}.

Definition getSession (w : world) : M clients (option Session) :=
  c <- get ;;
  call GetSession
    match getSession_rejects w with
    | Some e => Throw e
    | None => Normal (main_session c)
    end.

(** The call [dbSupabase.auth.setSession(...)].  It resolves or rejects
    as the world says, and the db client then holds what the world says;
    the main client is not involved. *)
Definition setSession (w : world) (access refresh : string)
  : M clients (option error) :=
  modify (fun c => mkClients (main_session c) (db_after_setSession w)) ;;
  sdk_call (SetSession access refresh) (setSession_answer w).

Definition syncSupabaseAuth (w : world) : M clients unit :=
  try_catch
    (session <- getSession w ;;
     match session with
     | Some s =>
         setSession w (access_token s) (refresh_token s) ;;
         ret tt
     | None => ret tt
     end)
    (fun _ => ret tt).

Definition is_setSession (ev : event) : bool :=
  match ev with
  | SetSession _ _ => true
  | _ => false
  end.

End Auth.

(** ** The results screen *)

Module Results.

(** The state [handleSaveMeal] can change: the [isSaving] flag of the
    component and the sessions of the two client handles. *)
Record state : Type := mkState {
  isSaving : bool;
  clients : Auth.clients
}.

(** What the outside answers during one run of [handleSaveMeal]. *)
Record world : Type := mkWorld {
  StringToNumber : string -> JS.number;
  auth : Auth.world;
  uploadThumbnail_answer : completion string;
  (** [supabase.auth.getUser()]: rejects, or resolves with a user or
      with [null]. *)
  getUser_answer : completion (option User);
  rpc_answer : sdk_answer;
  insert_answer : sdk_answer;
  (** [new Date().toISOString()] *)
  now : string
}.

Definition with_clients {A} (m : M Auth.clients A) : M state A :=
  fun st =>
    let o := m (clients st) in
    mkOutcome (res o) (mkState (isSaving st) (final o)) (events o).

Definition setIsSaving (b : bool) : M state unit :=
  emit (SetIsSaving b) ;;
  modify (fun st => mkState b (clients st)).

Definition uploadThumbnail (w : world) (fileUri : string) : M state string :=
  call (UploadThumbnail fileUri) (uploadThumbnail_answer w).

Definition getUser (w : world) : M state (option User) :=
  call GetUser (getUser_answer w).

Definition rpc (w : world) (fn : string) (args : rpc_params)
  : M state (option error) :=
  sdk_call (Rpc fn args) (rpc_answer w).

Definition insert (w : world) (table : string) (row : meal_row)
  : M state (option error) :=
  sdk_call (TableInsert table row) (insert_answer w).

Definition placeholder : string :=
  "https://via.placeholder.com/300x200?text=Upload+Failed".

(** [err?.message || 'Unknown error'] *)
Definition message_or_unknown (err : error) : string :=
  match message err with
  | Some m => if (m =? "")%string then "Unknown error" else m
  | None => "Unknown error"
  end.

Definition missing_data : M state unit :=
  emit (AlertShown "Error" "Missing data required to save meal").

(** The macro written for a field of the analysis result. *)
Definition macro (w : world) (v : JS.value) : JS.number :=
  JS.round_or_zero (StringToNumber w) v.

(** [handleSaveMeal] past its guard.  In the fallback, [user] is the user
    of the auth context: the [user] bound in the first [try] block is out
    of scope there. *)
Definition save (w : world) (result : FoodAnalysisResult)
  (imageUri : string) (user : User) : M state unit :=
  try_catch
    (setIsSaving true ;;
     emit (Haptic ImpactMedium) ;;
     with_clients (Auth.syncSupabaseAuth (auth w)) ;;
     thumbnailUrl <-
       try_catch (uploadThumbnail w imageUri) (fun _ => ret placeholder) ;;
     try_catch
       (dbUser <- getUser w ;;
        match dbUser with
        | None => throw (Error (Some "User not authenticated"))
        | Some _ =>
            err <- rpc w "insert_meal"
                     {| p_name := name result;
                        p_thumbnail_url := thumbnailUrl;
                        p_calories := macro w (calories result);
                        p_protein := macro w (protein result);
                        p_carbs := macro w (carbs result);
                        p_fat := macro w (fat result) |} ;;
            match err with
            | Some e => throw e
            | None => ret tt
            end
        end)
       (fun _ =>
          err <- insert w "meals"
                   {| row_name := name result;
                      row_user_id := id user;
                      row_calories := macro w (calories result);
                      row_protein := macro w (protein result);
                      row_carbs := macro w (carbs result);
                      row_fat := macro w (fat result);
                      row_image_url := thumbnailUrl;
                      row_meal_time := now w |} ;;
          match err with
          | Some e => throw e
          | None => ret tt
          end) ;;
     setIsSaving false ;;
     emit (Haptic NotifySuccess) ;;
     emit (AlertShown "Success" "Meal saved successfully") ;;
     emit (RouterReplace "/(tabs)"))
    (fun err =>
       emit (Haptic NotifyError) ;;
       emit (AlertShown "Error"
               (String.append "Failed to save meal: " (message_or_unknown err))) ;;
       setIsSaving false).

Definition is_some {A} (o : option A) : bool :=
  match o with
  | Some _ => true
  | None => false
  end.

(** [!imageUri]: a missing parameter and the empty string are falsy. *)
Definition falsy_string (s : option string) : bool :=
  match s with
  | Some s => (s =? "")%string
  | None => true
  end.

Definition handleSaveMeal (w : world) (result : option FoodAnalysisResult)
  (imageUri : option string) (user : option User) : M state unit :=
  match result, imageUri, user with
  | Some r, Some i, Some u =>
      if falsy_string imageUri then missing_data else save w r i u
  | _, _, _ => missing_data
  end.

(** The guard of [handleSaveMeal]: [!result || !imageUri || !user]. *)
Definition missing (result : option FoodAnalysisResult)
  (imageUri : option string) (user : option User) : bool :=
  negb (is_some result) || falsy_string imageUri || negb (is_some user).

(** *** What a run meets, read off the world

    These say in terms of the answers alone what happened to a run; they
    are what the statements below compare the handler with. *)

(** The thumbnail the run carries on after the upload. *)
Definition thumbnail (w : world) : string :=
  match uploadThumbnail_answer w with
  | Normal url => url
  | Throw _ => placeholder
  end.

(** [getUser] resolved with a user, so the remote procedure is called. *)
Definition rpc_called (w : world) : bool :=
  match getUser_answer w with
  | Normal (Some _) => true
  | _ => false
  end.

(** Something failed inside the first [try] block: [getUser] rejected or
    gave no user, or the remote procedure rejected or resolved with an
    error. *)
Definition rpc_branch_fails (w : world) : bool :=
  match getUser_answer w with
  | Normal (Some _) =>
      match rpc_answer w with
      | Ok => false
      | _ => true
      end
  | _ => true
  end.

(** The error the table insert fails with, if it fails. *)
Definition insert_error (w : world) : option error :=
  match insert_answer w with
  | Ok => None
  | Failed e | Rejected e => Some e
  end.

(** The action buttons of the returned view. *)
Record action_buttons : Type := mkButtons {
  cancel_disabled : bool;
  save_disabled : bool;
  save_label : string
}.

(** The part of the component's view that holds the two buttons: they
    are rendered when there is an image, the analysis is not loading and
    there is a result. *)
Definition render_actions (imageUri : option string) (isLoading : bool)
  (result : option FoodAnalysisResult) (isSaving : bool)
  : option action_buttons :=
  if falsy_string imageUri then None
  else if negb isLoading && is_some result then
    Some {| cancel_disabled := isSaving;
            save_disabled := isSaving;
            save_label := if isSaving then "Saving..." else "Save Meal" |}
  else None.

End Results.

(** ** The camera screen *)

Module Camera.

Record state : Type := mkState {
  hasCameraPermission : option bool;
  hasMediaLibraryPermission : option bool;
  hasGalleryPermission : option bool;
  isFocused : bool;
  isCapturing : bool;
  isAnalyzing : bool;
  capturedImage : option image
}.

(** The state of a freshly mounted screen. *)
Definition initial (focused : bool) : state :=
  mkState None None None focused false false None.

(** What [ImagePicker.requestMediaLibraryPermissionsAsync] resolves with:
    its [granted] field and whether [status === 'granted']. *)
Record permission_response : Type := mkPermission {
  granted : bool;
  status_granted : bool
}.

(** What [launchImageLibraryAsync] resolves with. *)
Record picker_result : Type := mkPicked {
  canceled : bool;
  assets : option (list image)
}.

Record world : Type := mkWorld {
  (** the value of the [useCameraPermissions] hook at mount: [null], or
      its [granted] field *)
  permission : option bool;
  requestPermission_answer : completion bool;
  mediaLibrary_answer : completion bool;
  imagePicker_answer : completion permission_response;
  launchImageLibrary_answer : completion picker_result;
  takePictureAsync_answer : completion image;
  processImageForAI_answer : completion string
}.

Definition setHasCameraPermission (b : bool) : M state unit :=
  emit (SetHasCameraPermission b) ;;
  modify (fun s =>
    mkState (Some b) (hasMediaLibraryPermission s) (hasGalleryPermission s)
      (isFocused s) (isCapturing s) (isAnalyzing s) (capturedImage s)).

Definition setHasMediaLibraryPermission (b : bool) : M state unit :=
  emit (SetHasMediaLibraryPermission b) ;;
  modify (fun s =>
    mkState (hasCameraPermission s) (Some b) (hasGalleryPermission s)
      (isFocused s) (isCapturing s) (isAnalyzing s) (capturedImage s)).

Definition setHasGalleryPermission (b : bool) : M state unit :=
  emit (SetHasGalleryPermission b) ;;
  modify (fun s =>
    mkState (hasCameraPermission s) (hasMediaLibraryPermission s) (Some b)
      (isFocused s) (isCapturing s) (isAnalyzing s) (capturedImage s)).

Definition setIsCapturing (b : bool) : M state unit :=
  emit (SetIsCapturing b) ;;
  modify (fun s =>
    mkState (hasCameraPermission s) (hasMediaLibraryPermission s)
      (hasGalleryPermission s) (isFocused s) b (isAnalyzing s)
      (capturedImage s)).

Definition setIsAnalyzing (b : bool) : M state unit :=
  emit (SetIsAnalyzing b) ;;
  modify (fun s =>
    mkState (hasCameraPermission s) (hasMediaLibraryPermission s)
      (hasGalleryPermission s) (isFocused s) (isCapturing s) b
      (capturedImage s)).

Definition setCapturedImage (img : option image) : M state unit :=
  emit (SetCapturedImage img) ;;
  modify (fun s =>
    mkState (hasCameraPermission s) (hasMediaLibraryPermission s)
      (hasGalleryPermission s) (isFocused s) (isCapturing s) (isAnalyzing s)
      img).

Definition setFocused (b : bool) (s : state) : state :=
  mkState (hasCameraPermission s) (hasMediaLibraryPermission s)
    (hasGalleryPermission s) b (isCapturing s) (isAnalyzing s)
    (capturedImage s).

(** The effect run on mount. *)
Definition mount_effect (w : world) : M state unit :=
  match permission w with
  | Some g => setHasCameraPermission g
  | None =>
      g <- call RequestCameraPermission (requestPermission_answer w) ;;
      setHasCameraPermission g
  end ;;
  m <- call MediaLibraryRequestPermissions (mediaLibrary_answer w) ;;
  setHasMediaLibraryPermission m ;;
  g <- call ImagePickerRequestPermissions (imagePicker_answer w) ;;
  setHasGalleryPermission (status_granted g).

(** What the component returns. *)
Inductive view : Type :=
| PermissionLoading
| PermissionRequest
| ImagePreview (imageUri : string)
| CameraScreen (camera_mounted : bool).

Definition render (s : state) : view :=
  match hasCameraPermission s with
  | None => PermissionLoading
  | Some false => PermissionRequest
  | Some true =>
      match capturedImage s with
      | Some img => ImagePreview (uri img)
      | None => CameraScreen (isFocused s)
      end
  end.

(** [CameraView] and, next to it, [CameraControls] with
    [onCapture={takePicture}] are part of the view. *)
Definition shows_camera (v : view) : bool :=
  match v with
  | CameraScreen true => true
  | _ => false
  end.

(** [cameraRef.current]: the ref is attached while [CameraView] is mounted
    and [null] otherwise. *)
Definition cameraRef_current (s : state) : bool :=
  shows_camera (render s).

Definition takePicture (w : world) : M state unit :=
  s <- get ;;
  if negb (cameraRef_current s) then ret tt
  else
    try_catch
      (setIsCapturing true ;;
       emit (Haptic ImpactMedium) ;;
       photo <- call TakePictureAsync (takePictureAsync_answer w) ;;
       setCapturedImage (Some photo) ;;
       setIsCapturing false ;;
       emit (Haptic NotifySuccess))
      (fun _ =>
         setIsCapturing false ;;
         emit (AlertShown "Error" "Failed to take picture. Please try again.")).

(** [!hasGalleryPermission] *)
Definition falsy (b : option bool) : bool :=
  match b with
  | Some true => false
  | _ => true
  end.

(** [n || d] on a dimension *)
Definition or_default (n d : Z) : Z :=
  if (n =? 0)%Z then d else n.

Definition handleGalleryOpen (w : world) : M state unit :=
  try_catch
    (s <- get ;;
     proceed <-
       (if falsy (hasGalleryPermission s) then
          galleryStatus <-
            call ImagePickerRequestPermissions (imagePicker_answer w) ;;
          if negb (granted galleryStatus) then
            emit (AlertShown "Permission required"
              "We need access to your photo gallery to select images.") ;;
            ret false
          else
            setHasGalleryPermission (status_granted galleryStatus) ;;
            ret true
        else ret true) ;;
     if proceed : bool then
       picked <- call LaunchImageLibrary (launchImageLibrary_answer w) ;;
       match canceled picked, assets picked with
       | false, Some (selectedImage :: _) =>
           setCapturedImage
             (Some {| uri := uri selectedImage;
                      width := or_default (width selectedImage) 800;
                      height := or_default (height selectedImage) 600 |}) ;;
           emit (Haptic NotifySuccess) ;;
           emit (Haptic NotifySuccess)
       | _, _ => ret tt
       end
     else ret tt)
    (fun _ =>
       emit (AlertShown "Error" "Failed to open gallery. Please try again.") ;;
       emit (Haptic NotifyError)).

(** [handleRetake] up to its timer, and the timer's callback. *)
Definition handleRetake : M state unit :=
  try_catch
    (setIsAnalyzing false ;;
     emit (Haptic ImpactLight))
    (fun _ =>
       emit (AlertShown "Error" "Failed to reset camera. Please try again.")).

Definition retake_timeout : M state unit :=
  setCapturedImage None.

Definition handleAnalyzeImage (w : world) : M state unit :=
  s <- get ;;
  match capturedImage s with
  | None => ret tt
  | Some img =>
      try_catch
        (setIsAnalyzing true ;;
         emit (Haptic ImpactMedium) ;;
         processedImageUri <-
           call (ProcessImageForAI (uri img)) (processImageForAI_answer w) ;;
         emit (RouterPush "/results" processedImageUri))
        (fun _ =>
           setIsAnalyzing false ;;
           emit (AlertShown "Error"
                   "Failed to analyze image. Please try again."))
  end.

End Camera.

(** ** Reading a sequence of calls *)

Module Trace.

Definition is_upload (ev : event) : bool :=
  match ev with
  | UploadThumbnail _ => true
  | _ => false
  end.

Definition is_rpc (ev : event) : bool :=
  match ev with
  | Rpc _ _ => true
  | _ => false
  end.

Definition is_table_insert (ev : event) : bool :=
  match ev with
  | TableInsert _ _ => true
  | _ => false
  end.

(** The two write paths. *)
Definition is_write (ev : event) : bool :=
  is_rpc ev || is_table_insert ev.

(** Calls that go to the backend or to a vendor service. *)
Definition is_network (ev : event) : bool :=
  match ev with
  | GetSession | SetSession _ _ | UploadThumbnail _ | GetUser
  | Rpc _ _ | TableInsert _ _ => true
  | _ => false
  end.

Definition is_image_set (ev : event) : bool :=
  match ev with
  | SetCapturedImage (Some _) => true
  | _ => false
  end.

Definition is_takePicture (ev : event) : bool :=
  match ev with
  | TakePictureAsync => true
  | _ => false
  end.

Definition is_permission_granted (ev : event) : bool :=
  match ev with
  | SetHasCameraPermission true => true
  | _ => false
  end.

Definition count (p : event -> bool) (l : list event) : nat :=
  length (filter p l).

(** Every [q] call of [l] has a [p] call somewhere before it ([seen] says
    whether one happened before [l]). *)
Fixpoint preceded (p q : event -> bool) (seen : bool) (l : list event) : bool :=
  match l with
  | [] => true
  | ev :: l' => (negb (q ev) || seen) && preceded p q (seen || p ev) l'
  end.

(** The calls made before the first network call, and the rest. *)
Fixpoint before_network (l : list event) : list event :=
  match l with
  | [] => []
  | ev :: l' => if is_network ev then [] else ev :: before_network l'
  end.

Fixpoint from_network (l : list event) : list event :=
  match l with
  | [] => []
  | ev :: l' => if is_network ev then l else from_network l'
  end.

(** The value of [isSaving] once the [setIsSaving] calls of [l] are
    applied. *)
Fixpoint apply_setIsSaving (l : list event) (b : bool) : bool :=
  match l with
  | [] => b
  | SetIsSaving b' :: l' => apply_setIsSaving l' b'
  | _ :: l' => apply_setIsSaving l' b
  end.

(** The steps of the save pipeline, as the spec lists them. *)
Inductive pipeline_step : Type :=
| StepUpload
| StepRpc
| StepTableInsert.

Fixpoint pipeline (l : list event) : list pipeline_step :=
  match l with
  | [] => []
  | UploadThumbnail _ :: l' => StepUpload :: pipeline l'
  | Rpc _ _ :: l' => StepRpc :: pipeline l'
  | TableInsert _ _ :: l' => StepTableInsert :: pipeline l'
  | _ :: l' => pipeline l'
  end.

(** The thumbnail and the four macros a write carries. *)
Definition written_thumbnail (ev : event) : option string :=
  match ev with
  | Rpc _ a => Some (p_thumbnail_url a)
  | TableInsert _ r => Some (row_image_url r)
  | _ => None
  end.

Definition written_macros (ev : event) : list JS.number :=
  match ev with
  | Rpc _ a => [p_calories a; p_protein a; p_carbs a; p_fat a]
  | TableInsert _ r => [row_calories r; row_protein r; row_carbs r; row_fat r]
  | _ => []
  end.

End Trace.

(** ** The save button: saves that have started and not yet settled *)

Module SaveButton.

(** The results screen as the user meets it: its route parameter, the
    user of the auth context, its React state, and for each save that was
    started and has not settled yet, the calls that save still has to
    make. *)
Record ui : Type := mkUi {
  imageUri : option string;
  user : option User;
  isLoading : bool;
  result : option FoodAnalysisResult;
  isSaving : bool;
  in_flight : list (list event)
}.

Definition mounted (imageUri : option string) (user : option User) : ui :=
  mkUi imageUri user true None false [].

Definition save_enabled (u : ui) : bool :=
  match Results.render_actions (imageUri u) (isLoading u) (result u) (isSaving u) with
  | Some b => negb (Results.save_disabled b)
  | None => false
  end.

Inductive action : Type :=
(** Save is pressed; [w] and [c] are what the outside will answer and
    what the client handles hold. *)
| PressSave (w : Results.world) (c : Auth.clients)
(** the [n]-th save in flight runs to its end *)
| Settle (n : nat)
(** the analysis starts over or ends *)
| Analysis (loading : bool) (r : option FoodAnalysisResult).

(** A press runs [handleSaveMeal] up to its first network call, and the
    view is rendered again before the next press is delivered; the rest
    of the run happens when the save settles. *)
Definition step (a : action) (u : ui) : ui :=
  match a with
  | PressSave w c =>
      if save_enabled u then
        let evs :=
          events (Results.handleSaveMeal w (result u) (imageUri u) (user u)
                    (Results.mkState (isSaving u) c)) in
        mkUi (imageUri u) (user u) (isLoading u) (result u)
          (Trace.apply_setIsSaving (Trace.before_network evs) (isSaving u))
          match Trace.from_network evs with
          | [] => in_flight u
          | run => run :: in_flight u
          end
      else u
  | Settle n =>
      match nth_error (in_flight u) n with
      | Some run =>
          mkUi (imageUri u) (user u) (isLoading u) (result u)
            (Trace.apply_setIsSaving run (isSaving u))
            (firstn n (in_flight u) ++ skipn (S n) (in_flight u))
      | None => u
      end
  | Analysis loading r =>
      mkUi (imageUri u) (user u) loading r (isSaving u) (in_flight u)
  end.

Definition run (l : list action) (u : ui) : ui :=
  fold_left (fun u a => step a u) l u.

(** At most one save is in flight; while one is, [isSaving] is true and
    the calls it still has to make end with [isSaving] false. *)
Definition one_at_a_time (u : ui) : Prop :=
  match in_flight u with
  | [] => True
  | [run] => isSaving u = true /\ forall b, Trace.apply_setIsSaving run b = false
  | _ => False
  end.

End SaveButton.

(** ** One results screen after another *)

Module Screens.

(** Every results screen mounted so far, the one in front first.  The
    back button of the header calls [router.back()] and is never
    disabled; a screen left that way is gone, but the calls of a save it
    started go on, and the next push from the camera screen mounts a new
    screen with a state of its own. *)
Definition screens : Type := list SaveButton.ui.

Inductive action : Type :=
(** something happens on the screen in front *)
| InFront (a : SaveButton.action)
(** the [n]-th save in flight of the [i]-th screen behind it runs to its
    end *)
| SettleBehind (i n : nat)
(** back, then a new push of the results route *)
| BackAndAgain (imageUri : option string) (user : option User).

Fixpoint at_index (i : nat) (f : SaveButton.ui -> SaveButton.ui)
  (l : screens) : screens :=
  match l, i with
  | [], _ => []
  | u :: rest, O => f u :: rest
  | u :: rest, S i' => u :: at_index i' f rest
  end.

Definition step (a : action) (l : screens) : screens :=
  match a with
  | InFront b => at_index 0 (SaveButton.step b) l
  | SettleBehind i n => at_index (S i) (SaveButton.step (SaveButton.Settle n)) l
  | BackAndAgain imageUri user => SaveButton.mounted imageUri user :: l
  end.

Definition run (acts : list action) (l : screens) : screens :=
  fold_left (fun l a => step a l) acts l.

(** The saves in flight, over all screens. *)
Definition in_flight_total (l : screens) : nat :=
  fold_right (fun u n => length (SaveButton.in_flight u) + n) 0 l.

End Screens.

(** ** The application: camera screen, navigation, results screen *)

Module App.

(** The results screen, mounted by a push of ["/results"]. *)
Record screen : Type := mkScreen {
  imageUri : option string;
  result : option FoodAnalysisResult;
  isSaving : bool
}.

Record app : Type := mkApp {
  camera : Camera.state;
  results : option screen;
  clients : Auth.clients;
  trace : list event
}.

Definition initial (focused : bool) (c : Auth.clients) : app :=
  mkApp (Camera.initial focused) None c [].

Inductive action : Type :=
| Mount (w : Camera.world)
| Focus (b : bool)
| TakePicture (w : Camera.world)
| GalleryOpen (w : Camera.world)
| Retake
| RetakeTimeout
| Analyze (w : Camera.world)
| AnalysisDone (r : option FoodAnalysisResult)
| SaveMeal (w : Results.world) (user : option User)
(** the results route opened by its address: the screen takes its
    [imageUri] from the route parameter, whatever it is *)
| OpenResults (imageUri : option string).

(** The screen a list of calls navigates to, if any. *)
Fixpoint pushed (l : list event) : option string :=
  match l with
  | [] => None
  | RouterPush _ u :: _ => Some u
  | _ :: l' => pushed l'
  end.

Definition replaced (ev : event) : bool :=
  match ev with
  | RouterReplace _ => true
  | _ => false
  end.

Definition on_camera (m : M Camera.state unit) (s : app) : app :=
  let o := m (camera s) in
  mkApp (final o)
    match pushed (events o) with
    | Some u => Some (mkScreen (Some u) None false)
    | None => results s
    end
    (clients s) (trace s ++ events o).

Definition step (a : action) (s : app) : app :=
  match a with
  | Mount w => on_camera (Camera.mount_effect w) s
  | Focus b => mkApp (Camera.setFocused b (camera s)) (results s) (clients s) (trace s)
  | TakePicture w => on_camera (Camera.takePicture w) s
  | GalleryOpen w => on_camera (Camera.handleGalleryOpen w) s
  | Retake => on_camera Camera.handleRetake s
  | RetakeTimeout => on_camera Camera.retake_timeout s
  | Analyze w => on_camera (Camera.handleAnalyzeImage w) s
  | AnalysisDone r =>
      match results s with
      | Some sc =>
          mkApp (camera s) (Some (mkScreen (imageUri sc) r (isSaving sc)))
            (clients s) (trace s)
      | None => s
      end
  | SaveMeal w user =>
      match results s with
      | Some sc =>
          let o :=
            Results.handleSaveMeal w (result sc) (imageUri sc) user
              (Results.mkState (isSaving sc) (clients s)) in
          mkApp (camera s)
            (if existsb replaced (events o) then None
             else Some (mkScreen (imageUri sc) (result sc)
                          (Results.isSaving (final o))))
            (Results.clients (final o)) (trace s ++ events o)
      | None => s
      end
  | OpenResults imageUri =>
      mkApp (camera s) (Some (mkScreen imageUri None false)) (clients s)
        (trace s)
  end.

Definition run (l : list action) (s : app) : app :=
  fold_left (fun s a => step a s) l s.

Definition opens_directly (a : action) : bool :=
  match a with
  | OpenResults _ => true
  | _ => false
  end.

(** The results screen is only entered through the push of the camera
    screen. *)
Definition from_camera (l : list action) : bool :=
  forallb (fun a => negb (opens_directly a)) l.

(** What the application's invariants need of a handler of the camera
    screen: it uploads nothing; it takes a picture only in a state whose
    permission flag is [true]; the flag becomes [true] only through
    [setHasCameraPermission(true)]; an image appears only through
    [setCapturedImage]; and it navigates only when there is an image. *)
Definition well_behaved (m : M Camera.state unit) : Prop :=
  forall s,
    existsb Trace.is_upload (events (m s)) = false /\
    (existsb Trace.is_takePicture (events (m s)) = true ->
     Camera.hasCameraPermission s = Some true) /\
    (Camera.hasCameraPermission (final (m s)) = Some true ->
     Camera.hasCameraPermission s = Some true \/
     existsb Trace.is_permission_granted (events (m s)) = true) /\
    (Camera.capturedImage (final (m s)) <> None ->
     Camera.capturedImage s <> None \/ existsb Trace.is_image_set (events (m s)) = true) /\
    (pushed (events (m s)) <> None -> Camera.capturedImage s <> None).

(** What holds of every state the application reaches. *)
Record invariant (s : app) : Prop := mkInvariant {
  image_was_set :
    Camera.capturedImage (camera s) <> None ->
    existsb Trace.is_image_set (trace s) = true;
  results_after_image :
    results s <> None -> existsb Trace.is_image_set (trace s) = true;
  upload_after_image :
    Trace.preceded Trace.is_image_set Trace.is_upload false (trace s) = true;
  permission_was_granted :
    Camera.hasCameraPermission (camera s) = Some true ->
    existsb Trace.is_permission_granted (trace s) = true;
  picture_after_permission :
    Trace.preceded Trace.is_permission_granted Trace.is_takePicture false (trace s) = true
}.

(** The part of the invariant that is about the camera alone; it holds
    however the results screen is entered. *)
Record permission_invariant (s : app) : Prop := mkPermissionInvariant {
  flag_after_grant :
    Camera.hasCameraPermission (camera s) = Some true ->
    existsb Trace.is_permission_granted (trace s) = true;
  picture_after_grant :
    Trace.preceded Trace.is_permission_granted Trace.is_takePicture false
      (trace s) = true
}.

End App.


(** ** Handlers that make calls of their own

    The remaining handlers call services and state setters that the
    handlers above do not.  They are written in the same kind of monad,
    over a type of calls of their own that embeds [event]. *)

Module Proc.

Section Proc.

Context {E St : Type}.

Record outcome (A : Type) : Type := mkOutcome {
  ended : completion A;
  after : St;
  calls : list E
}.
Arguments mkOutcome {A}.
Arguments ended {A}.
Arguments after {A}.
Arguments calls {A}.

Definition P (A : Type) : Type := St -> outcome A.

Definition ret {A} (a : A) : P A :=
  fun st => mkOutcome (Normal a) st [].

Definition bind {A B} (m : P A) (k : A -> P B) : P B :=
  fun st =>
    let o := m st in
    match ended o with
    | Normal a =>
        let o' := k a (after o) in
        mkOutcome (ended o') (after o') (calls o ++ calls o')
    | Throw e => mkOutcome (Throw e) (after o) (calls o)
    end.

(** [try { m } catch (e) { h e }] *)
Definition try_catch {A} (m : P A) (h : error -> P A) : P A :=
  fun st =>
    let o := m st in
    match ended o with
    | Normal a => o
    | Throw e =>
        let o' := h e (after o) in
        mkOutcome (ended o') (after o') (calls o ++ calls o')
    end.

(** [try { m } finally { f }]: [f] runs either way, and the completion
    is that of [m] unless [f] itself throws. *)
Definition try_finally {A} (m : P A) (f : P unit) : P A :=
  fun st =>
    let o := m st in
    let o' := f (after o) in
    mkOutcome
      match ended o' with
      | Normal _ => ended o
      | Throw e => Throw e
      end
      (after o') (calls o ++ calls o').

Definition emit (c : E) : P unit :=
  fun st => mkOutcome (Normal tt) st [c].

(** An awaited call. *)
Definition await {A} (c : E) (answer : completion A) : P A :=
  fun st => mkOutcome answer st [c].

Definition get : P St :=
  fun st => mkOutcome (Normal st) st [].

Definition modify (f : St -> St) : P unit :=
  fun st => mkOutcome (Normal tt) (f st) [].

(** A handler of the first kind, run on a part of the state. *)
Definition lift {S0 A} (inj : event -> E) (part : St -> S0)
  (put : S0 -> St -> St) (m : M S0 A) : P A :=
  fun st =>
    let o := m (part st) in
    mkOutcome (res o) (put (final o) st)
      (map inj (events o)).

End Proc.

Arguments outcome : clear implicits.
Arguments P : clear implicits.
Arguments mkOutcome {E St A}.
Arguments ended {E St A}.
Arguments after {E St A}.
Arguments calls {E St A}.

End Proc.

Declare Scope proc_scope.
Delimit Scope proc_scope with proc.
Notation "x <- m ;; k" := (Proc.bind m (fun x => k))
  (at level 100, m at next level, right associativity) : proc_scope.
Notation "m ;; k" := (Proc.bind m (fun _ => k))
  (at level 100, right associativity) : proc_scope.

(** ** The results screen apart from saving *)

Module Screen.

Local Open Scope proc_scope.

Inductive call : Type :=
| Base (ev : event)
| AnalyzeFoodImage (imageUri : option string)
| SetIsLoading (b : bool)
| SetError (e : option string)
| SetResult (r : FoodAnalysisResult)
| RouterBack.

(** The React state of the screen next to [isSaving]. *)
Record state : Type := mkState {
  isLoading : bool;
  error : option string;
  result : option FoodAnalysisResult
}.

(** The initial values of the three [useState] calls. *)
Definition mounted : state := mkState true None None.

Record world : Type := mkWorld {
  analyzeFoodImage_answer : completion FoodAnalysisResult
}.

Definition setIsLoading (b : bool) : Proc.P call state unit :=
  Proc.emit (SetIsLoading b) ;;
  Proc.modify (fun s => mkState b (error s) (result s)).

Definition setError (e : option string) : Proc.P call state unit :=
  Proc.emit (SetError e) ;;
  Proc.modify (fun s => mkState (isLoading s) e (result s)).

Definition setResult (r : FoodAnalysisResult) : Proc.P call state unit :=
  Proc.emit (SetResult r) ;;
  Proc.modify (fun s => mkState (isLoading s) (error s) (Some r)).

(** [analyzeFood]; [imageUri] is the route parameter, passed on as it
    is. *)
Definition analyzeFood (w : world) (imageUri : option string)
  : Proc.P call state unit :=
  Proc.try_finally
    (Proc.try_catch
       (setIsLoading true ;;
        setError None ;;
        Proc.emit (Base (Haptic ImpactMedium)) ;;
        analysisResult <-
          Proc.await (AnalyzeFoodImage imageUri) (analyzeFoodImage_answer w) ;;
        setResult analysisResult ;;
        Proc.emit (Base (Haptic NotifySuccess)))
       (fun _ =>
          setError (Some "Failed to analyze the food image. Please try again.") ;;
          Proc.emit (Base (Haptic NotifyError)) ;;
          Proc.emit
            (Base (AlertShown "Analysis Error"
               "There was a problem analyzing your food image. Please try again."))))
    (setIsLoading false).

(** The effect run when the screen mounts. *)
Definition mount_effect (w : world) (imageUri : option string)
  : Proc.P call state unit :=
  if Results.falsy_string imageUri then
    setError (Some "No image provided") ;;
    setIsLoading false
  else analyzeFood w imageUri.

Definition handleRetry (w : world) (imageUri : option string)
  : Proc.P call state unit :=
  analyzeFood w imageUri.

Definition handleBack : Proc.P call state unit :=
  Proc.emit RouterBack.

Definition handleCancel : Proc.P call state unit :=
  Proc.emit (Base (RouterReplace "/(tabs)")).

(** What [FoodAnalysisCard] shows. *)
Inductive card : Type :=
| Spinner
| Details (r : FoodAnalysisResult)
| NoAnalysis.

Definition FoodAnalysisCard (result : option FoodAnalysisResult)
  (isLoading : bool) : card :=
  if isLoading then Spinner
  else
    match result with
    | Some r => Details r
    | None => NoAnalysis
    end.

(** [error ? ... : ...] on the error message *)
Definition truthy_string (s : option string) : bool :=
  negb (Results.falsy_string s).

(** What the screen returns: whether the header holds the retry button,
    and the content, which is the card with the action buttons under it
    when there is an image and the "No image available" notice
    ([None]) otherwise. *)
Record view : Type := mkView {
  retry_button : bool;
  content : option (card * option Results.action_buttons)
}.

Definition render (imageUri : option string) (s : state) (isSaving : bool)
  : view :=
  {| retry_button := truthy_string (error s);
     content :=
       if Results.falsy_string imageUri then None
       else
         Some (FoodAnalysisCard (result s) (isLoading s),
               Results.render_actions imageUri (isLoading s) (result s)
                 isSaving) |}.

Definition is_analysis (c : call) : bool :=
  match c with
  | AnalyzeFoodImage _ => true
  | _ => false
  end.

Definition is_alert (c : call) : bool :=
  match c with
  | Base (AlertShown _ _) => true
  | _ => false
  end.

End Screen.

(** ** The rest of the camera screen *)

Module CameraActions.

Local Open Scope proc_scope.

Inductive flash : Type :=
| FlashOn
| FlashOff
| FlashAuto.

(** The updater [handleFlashToggle] hands to [setFlashMode]. *)
Definition handleFlashToggle (current : flash) : flash :=
  match current with
  | FlashOff => FlashOn
  | FlashOn => FlashAuto
  | FlashAuto => FlashOff
  end.

Inductive call : Type :=
| Base (ev : event)
| SaveImageToGallery (imgUri : string).

(** [saveImageToGallery] rejects, or resolves with an asset ([true]) or
    with nothing. *)
Record world : Type := mkWorld {
  saveImageToGallery_answer : completion bool
}.

Definition handleSaveImage (w : world) : Proc.P call Camera.state unit :=
  s <- Proc.get ;;
  match Camera.capturedImage s with
  | None => Proc.ret tt
  | Some img =>
      Proc.try_catch
        (asset <-
           Proc.await (SaveImageToGallery (uri img))
             (saveImageToGallery_answer w) ;;
         if asset : bool then
           Proc.emit (Base (AlertShown "Success" "Image saved to gallery.")) ;;
           Proc.emit (Base (Haptic NotifySuccess))
         else
           Proc.emit (Base (AlertShown "Error" "Failed to save image to gallery.")))
        (fun _ =>
           Proc.emit (Base (AlertShown "Error" "Failed to save image to gallery.")))
  end.

Definition is_alert (c : call) : bool :=
  match c with
  | Base (AlertShown _ _) => true
  | _ => false
  end.

End CameraActions.

(** ** The auth context (AuthProvider) *)

Module AuthProvider.

Local Open Scope proc_scope.

(** A session as the context holds it: its token pair and
    [session.user]. *)
Record AuthSession : Type := mkAuthSession {
  tokens : Session;
  session_user : option User
}.

Inductive call : Type :=
| Base (ev : event)
| SignInWithEmail (email password : string)
| SignUpWithEmail (email password : string) (metadata_name : option string)
| SupabaseSignOut
| ResetPasswordForEmail (email redirectTo : string)
| GetCurrentUser
| GetCurrentSession
| SetUser (u : option User)
| SetSessionState (s : option AuthSession)
| SetIsLoading (b : bool).

(** The three pieces of React state of the provider, and the two client
    handles. *)
Record state : Type := mkState {
  user : option User;
  session : option AuthSession;
  isLoading : bool;
  clients : Auth.clients
}.

Definition mounted (c : Auth.clients) : state := mkState None None true c.

(** What [signInWithEmail] and [signUpWithEmail] resolve with. *)
Record auth_response : Type := mkResponse {
  response_user : option User;
  response_session : option AuthSession;
  response_error : option error
}.

Record world : Type := mkWorld {
  signInWithEmail_answer : completion auth_response;
  signUpWithEmail_answer : completion auth_response;
  signOut_answer : completion (option error);
  resetPasswordForEmail_answer : completion (option error);
  getCurrentUser_answer : completion (option User);
  getCurrentSession_answer : completion (option AuthSession);
  (** The helpers of [./supabase] work on the main client; the session
      it holds once one of them has run is theirs to decide. *)
  main_after : option Session;
  sync : Auth.world
}.

(** An awaited call on a helper of [./supabase] or on the main client. *)
Definition helper {A} (w : world) (c : call) (answer : completion A)
  : Proc.P call state A :=
  fun s =>
    Proc.mkOutcome answer
      (mkState (user s) (session s) (isLoading s)
         (Auth.mkClients (main_after w) (Auth.db_session (clients s))))
      [c].

Definition setUser (u : option User) : Proc.P call state unit :=
  Proc.emit (SetUser u) ;;
  Proc.modify (fun s => mkState u (session s) (isLoading s) (clients s)).

Definition setSession (a : option AuthSession) : Proc.P call state unit :=
  Proc.emit (SetSessionState a) ;;
  Proc.modify (fun s => mkState (user s) a (isLoading s) (clients s)).

Definition setIsLoading (b : bool) : Proc.P call state unit :=
  Proc.emit (SetIsLoading b) ;;
  Proc.modify (fun s => mkState (user s) (session s) b (clients s)).

Definition syncSupabaseAuth (w : world) : Proc.P call state unit :=
  Proc.lift Base clients
    (fun c s => mkState (user s) (session s) (isLoading s) c)
    (Auth.syncSupabaseAuth (sync w)).

(** [fetchUserAndSession], run when the provider mounts. *)
Definition fetchUserAndSession (w : world) : Proc.P call state unit :=
  Proc.try_finally
    (Proc.try_catch
       (currentUser <- helper w GetCurrentUser (getCurrentUser_answer w) ;;
        currentSession <-
          helper w GetCurrentSession (getCurrentSession_answer w) ;;
        setUser currentUser ;;
        setSession currentSession)
       (fun _ => Proc.ret tt))
    (setIsLoading false).

(** The listener given to [onAuthStateChange]. *)
Definition onAuthStateChange (w : world) (a : option AuthSession)
  : Proc.P call state unit :=
  setSession a ;;
  setUser
    match a with
    | Some s => session_user s
    | None => None
    end ;;
  match a with
  | Some _ => syncSupabaseAuth w
  | None => Proc.ret tt
  end.

(** [signIn]; the value is the [error] field of what it resolves with. *)
Definition signIn (w : world) (email password : string)
  : Proc.P call state (option error) :=
  Proc.try_catch
    (r <- helper w (SignInWithEmail email password) (signInWithEmail_answer w) ;;
     match response_error r with
     | Some e => Proc.ret (Some e)
     | None =>
         syncSupabaseAuth w ;;
         Proc.ret None
     end)
    (fun e => Proc.ret (Some e)).

Definition signUp (w : world) (email password : string)
  (metadata_name : option string) : Proc.P call state (option error) :=
  Proc.try_catch
    (r <-
       helper w (SignUpWithEmail email password metadata_name)
         (signUpWithEmail_answer w) ;;
     match response_user r with
     | Some u =>
         setUser (Some u) ;;
         setSession (response_session r)
     | None => Proc.ret tt
     end ;;
     Proc.ret (response_error r))
    (fun e => Proc.ret (Some e)).

Definition signOut (w : world) : Proc.P call state unit :=
  Proc.try_catch
    (err <- helper w SupabaseSignOut (signOut_answer w) ;;
     match err with
     | None =>
         setUser None ;;
         setSession None
     | Some _ => Proc.ret tt
     end)
    (fun _ => Proc.ret tt).

Definition resetPassword (w : world) (email : string)
  : Proc.P call state (option error) :=
  Proc.try_catch
    (helper w (ResetPasswordForEmail email "foodnsap://reset-password")
       (resetPasswordForEmail_answer w))
    (fun e => Proc.ret (Some e)).

Definition is_sync (c : call) : bool :=
  match c with
  | Base GetSession => true
  | _ => false
  end.

End AuthProvider.

(** ** The root layout *)

Module Layout.

(** [segments[0] === '(auth)'] *)
Definition inAuthGroup (segments : list string) : bool :=
  match segments with
  | first :: _ => (first =? "(auth)")%string
  | [] => false
  end.

(** The effect of [RootLayoutNav]: the calls it makes on the router. *)
Definition RootLayoutNav_effect (user : option User) (isLoading : bool)
  (segments : list string) : list event :=
  if isLoading then []
  else if negb (Results.is_some user) && negb (inAuthGroup segments) then
    [RouterReplace "/(auth)/login"]
  else if Results.is_some user && inAuthGroup segments then
    [RouterReplace "/(tabs)"]
  else [].

(** The segments the router reports for a path: its parts between
    slashes, the names of groups included. *)
Fixpoint segments_from (path : string) (part : string) : list string :=
  match path with
  | EmptyString => if (part =? "")%string then [] else [part]
  | String c rest =>
      if Ascii.eqb c "/"%char then
        (if (part =? "")%string then [] else [part]) ++ segments_from rest ""
      else segments_from rest (String.append part (String c ""))
  end.

Definition segments_of (path : string) : list string :=
  segments_from path "".

End Layout.

(** ** More readings of a sequence of calls *)

Module Reading.

Definition is_alert (ev : event) : bool :=
  match ev with
  | AlertShown _ _ => true
  | _ => false
  end.

Definition is_success_alert (ev : event) : bool :=
  match ev with
  | AlertShown title _ => (title =? "Success")%string
  | _ => false
  end.

Definition is_launch (ev : event) : bool :=
  match ev with
  | LaunchImageLibrary => true
  | _ => false
  end.

(** One of the two writes of a run went through: the remote procedure
    block did not fail, or it did and the table insert succeeded. *)
Definition save_succeeds (w : Results.world) : bool :=
  negb (Results.rpc_branch_fails w) ||
  negb (Results.is_some (Results.insert_error w)).

(** The images a sequence of calls hands to [setCapturedImage]. *)
Fixpoint images_set (l : list event) : list image :=
  match l with
  | [] => []
  | SetCapturedImage (Some img) :: l' => img :: images_set l'
  | _ :: l' => images_set l'
  end.

End Reading.

(** ** Sample inputs *)

Module Sample.

Definition session_a : Session := mkSession "access-a" "refresh-a".

Definition user_a : User := mkUser "user-a".

Definition network_down : error := Error (Some "Network request failed").

(** None of the sample results below holds a string, so the conversion
    of the sample worlds is never consulted. *)
Definition no_numeric_strings (s : string) : JS.number := JS.NaN.

Definition salad : FoodAnalysisResult :=
  mkResult "Salad" (JS.VNumber (JS.Fin (2505 # 10)%Q)) (JS.VNumber (JS.Fin 12%Q))
    JS.VUndefined (JS.VNumber (JS.Fin (7 # 2)%Q)) "A green salad".

(** A result whose calories field is the Number [Infinity]. *)
Definition endless : FoodAnalysisResult :=
  mkResult "Buffet" (JS.VNumber JS.PosInf) (JS.VNumber (JS.Fin 30%Q))
    (JS.VNumber (JS.Fin 40%Q)) (JS.VNumber (JS.Fin 20%Q)) "All you can eat".

Definition signed_in : Auth.clients :=
  Auth.mkClients (Some session_a) None.

Definition idle : Results.state := Results.mkState false signed_in.

Definition auth_ok : Auth.world :=
  Auth.mkWorld None Ok (Some session_a).

(** Every call succeeds. *)
Definition all_ok : Results.world :=
  Results.mkWorld no_numeric_strings auth_ok
    (Normal "https://cdn.example/thumb.jpg") (Normal (Some user_a)) Ok Ok
    "2025-01-01T12:00:00.000Z".

(** The upload rejects; the rest succeeds. *)
Definition upload_down : Results.world :=
  Results.mkWorld no_numeric_strings auth_ok
    (Throw network_down) (Normal (Some user_a)) Ok Ok
    "2025-01-01T12:00:00.000Z".

(** The db client knows no user: [getUser] resolves with [null]. *)
Definition no_db_user : Results.world :=
  Results.mkWorld no_numeric_strings auth_ok
    (Normal "https://cdn.example/thumb.jpg") (Normal None) Ok Ok
    "2025-01-01T12:00:00.000Z".

(** The remote procedure resolves with an error and so does the insert. *)
Definition both_fail : Results.world :=
  Results.mkWorld no_numeric_strings auth_ok
    (Normal "https://cdn.example/thumb.jpg") (Normal (Some user_a))
    (Failed (Error (Some "function insert_meal does not exist")))
    (Failed network_down)
    "2025-01-01T12:00:00.000Z".

Definition photo : image := mkImage "file:///photo.jpg" 1200 900.

Definition camera_ok : Camera.world :=
  Camera.mkWorld (Some true) (Normal true) (Normal true)
    (Normal (Camera.mkPermission true true))
    (Normal (Camera.mkPicked false (Some [photo])))
    (Normal photo) (Normal "file:///processed.jpg").

(** A camera screen in front, permission granted, nothing captured. *)
Definition camera_ready : Camera.state :=
  Camera.mkState (Some true) (Some true) (Some true) true false false None.

End Sample.

Module MoreSamples.

Definition analysis_ok : Screen.world :=
  Screen.mkWorld (Normal Sample.salad).

Definition analysis_down : Screen.world :=
  Screen.mkWorld (Throw Sample.network_down).

(** A screen that shows an analysed meal. *)
Definition analysed : Screen.state :=
  Screen.mkState false None (Some Sample.salad).

Definition auth_session_a : AuthProvider.AuthSession :=
  AuthProvider.mkAuthSession Sample.session_a (Some Sample.user_a).

(** Every helper succeeds. *)
Definition provider_ok : AuthProvider.world :=
  AuthProvider.mkWorld
    (Normal (AuthProvider.mkResponse (Some Sample.user_a)
               (Some auth_session_a) None))
    (Normal (AuthProvider.mkResponse (Some Sample.user_a)
               (Some auth_session_a) None))
    (Normal None) (Normal None)
    (Normal (Some Sample.user_a)) (Normal (Some auth_session_a))
    (Some Sample.session_a) Sample.auth_ok.

(** The sign-in succeeds and the synchronisation after it fails. *)
Definition sync_down : AuthProvider.world :=
  AuthProvider.mkWorld
    (Normal (AuthProvider.mkResponse (Some Sample.user_a)
               (Some auth_session_a) None))
    (Normal (AuthProvider.mkResponse None None
               (Some (Error (Some "User already registered")))))
    (Normal (Some Sample.network_down)) (Throw Sample.network_down)
    (Normal (Some Sample.user_a)) (Throw Sample.network_down)
    (Some Sample.session_a)
    (Auth.mkWorld None (Rejected Sample.network_down) None).

Definition signed_out : AuthProvider.state :=
  AuthProvider.mounted (Auth.mkClients None None).

Definition signed_in_context : AuthProvider.state :=
  AuthProvider.mkState (Some Sample.user_a) (Some auth_session_a) false
    Sample.signed_in.

End MoreSamples.

(** * Properties *)

(** ** Sequences of calls *)

Module TraceFacts.

Import Trace.

Lemma count_app p l1 l2 : count p (l1 ++ l2) = count p l1 + count p l2.
Proof.
  unfold count. rewrite filter_app, length_app. reflexivity.
Qed.

Lemma preceded_app p q seen l1 l2 :
  preceded p q seen (l1 ++ l2) =
  preceded p q seen l1 && preceded p q (seen || existsb p l1) l2.
Proof.
  revert seen. induction l1 as [|ev l1 IH]; intros seen; simpl.
  - rewrite orb_false_r. reflexivity.
  - rewrite IH, orb_assoc, andb_assoc. reflexivity.
Qed.

(** Once a [p] call has been seen, nothing more is asked. *)
Lemma preceded_seen p q l : preceded p q true l = true.
Proof.
  induction l as [|ev l IH]; simpl; [reflexivity|].
  rewrite orb_true_r. exact IH.
Qed.

(** A sequence without [q] calls asks for nothing. *)
Lemma preceded_absent p q seen l :
  existsb q l = false -> preceded p q seen l = true.
Proof.
  revert seen. induction l as [|ev l IH]; intros seen H; simpl in *; [reflexivity|].
  apply orb_false_elim in H. destruct H as [Hq Hl].
  rewrite Hq, IH by assumption. reflexivity.
Qed.

(** What [preceded] decides: every [q] call has a [p] call in front. *)
Lemma preceded_sound p q l :
  preceded p q false l = true ->
  forall l1 ev l2, l = l1 ++ ev :: l2 -> q ev = true -> existsb p l1 = true.
Proof.
  intros H l1 ev l2 -> Hq.
  rewrite preceded_app in H. apply andb_prop in H. destruct H as [_ H].
  simpl in H. rewrite Hq in H. simpl in H.
  apply andb_prop in H. destruct H as [H _]. exact H.
Qed.

Lemma apply_setIsSaving_app l1 l2 b :
  apply_setIsSaving (l1 ++ l2) b = apply_setIsSaving l2 (apply_setIsSaving l1 b).
Proof.
  revert b. induction l1 as [|ev l1 IH]; intros b; simpl; [reflexivity|].
  destruct ev; apply IH.
Qed.

Lemma pipeline_app l1 l2 : pipeline (l1 ++ l2) = pipeline l1 ++ pipeline l2.
Proof.
  induction l1 as [|ev l1 IH]; simpl; [reflexivity|].
  destruct ev; simpl; rewrite IH; reflexivity.
Qed.

End TraceFacts.

(** ** Session synchronisation *)

Module AuthFacts.

Import Auth Sample.

(** The calls of one synchronisation: [getSession], then [setSession]
    exactly when a session came back. *)
Lemma sync_events w c :
  events (syncSupabaseAuth w c) =
  GetSession ::
  match getSession_rejects w, main_session c with
  | None, Some s => [SetSession (access_token s) (refresh_token s)]
  | _, _ => []
  end.
Proof.
  destruct c as [[s|] d];
    unfold syncSupabaseAuth, getSession, setSession, try_catch, bind, sdk_call,
      call, get, ret, modify;
    destruct (getSession_rejects w); simpl; try reflexivity;
    destruct (setSession_answer w); reflexivity.
Qed.

Lemma sync_resolves w c : res (syncSupabaseAuth w c) = Normal tt.
Proof.
  destruct c as [[s|] d];
    unfold syncSupabaseAuth, getSession, setSession, try_catch, bind, sdk_call,
      call, get, ret, modify;
    destruct (getSession_rejects w); simpl; try reflexivity;
    destruct (setSession_answer w); reflexivity.
Qed.

(** The handles are left as they were unless [setSession] was called. *)
Lemma sync_final w c :
  final (syncSupabaseAuth w c) =
  match getSession_rejects w, main_session c with
  | None, Some s => mkClients (main_session c) (db_after_setSession w)
  | _, _ => c
  end.
Proof.
  destruct c as [[s|] d];
    unfold syncSupabaseAuth, getSession, setSession, try_catch, bind, sdk_call,
      call, get, ret, modify;
    destruct (getSession_rejects w); simpl; try reflexivity;
    destruct (setSession_answer w); reflexivity.
Qed.

(** C10: [syncSupabaseAuth] never rejects: whatever [getSession] and
    [setSession] do, the call resolves.  When the main client holds no
    session it makes no [setSession] call, and both handles are left as
    they were. *)
Theorem sync_never_rejects w c :
  res (syncSupabaseAuth w c) = Normal tt /\
  (main_session c = None ->
   existsb is_setSession (events (syncSupabaseAuth w c)) = false /\
   final (syncSupabaseAuth w c) = c).
Proof.
  split; [apply sync_resolves|].
  intros Hnone. rewrite sync_events, sync_final, Hnone.
  destruct (getSession_rejects w); split; reflexivity.
Qed.

Lemma sync_never_rejects_witness :
  let w := mkWorld None (Rejected (Error (Some "network"))) None in
  let c := mkClients None (Some session_a) in
  res (syncSupabaseAuth w c) = Normal tt /\
  existsb is_setSession (events (syncSupabaseAuth w c)) = false /\
  final (syncSupabaseAuth w c) = c.
Proof.
  intros w c.
  destruct (sync_never_rejects w c) as [H1 H2].
  split; [exact H1 | apply H2; reflexivity].
Defined.

(** C2 as stated fails: the main client holds a session, [setSession]
    resolves with an error, and afterwards the db client holds nothing. *)
Lemma sync_same_tokens_counterexample :
  let w := mkWorld None (Failed (Error (Some "Invalid Refresh Token"))) None in
  let c := mkClients (Some session_a) None in
  main_session c = Some session_a /\
  res (syncSupabaseAuth w c) = Normal tt /\
  db_session (final (syncSupabaseAuth w c)) <> main_session c.
Proof.
  cbv zeta. repeat split; try reflexivity. discriminate.
Qed.

(** C2, amended: when the main client holds a session and [getSession]
    resolves, [setSession] is called on the db client exactly once, with
    exactly the main client's access and refresh token, and the call of
    the helper resolves whatever [setSession] answers.  Whether the db
    client then holds that pair is the outcome of that one call, which the
    helper neither checks nor reports. *)
Theorem sync_copies_tokens w c s :
  main_session c = Some s ->
  getSession_rejects w = None ->
  events (syncSupabaseAuth w c) =
    [GetSession; SetSession (access_token s) (refresh_token s)] /\
  res (syncSupabaseAuth w c) = Normal tt.
Proof.
  intros Hs Hg. rewrite sync_events, sync_resolves, Hs, Hg.
  split; reflexivity.
Qed.

Lemma sync_copies_tokens_witness :
  let w := mkWorld None Ok (Some session_a) in
  let c := mkClients (Some session_a) None in
  events (syncSupabaseAuth w c) =
    [GetSession; SetSession "access-a" "refresh-a"] /\
  res (syncSupabaseAuth w c) = Normal tt.
Proof.
  intros w c.
  exact (sync_copies_tokens w c session_a eq_refl eq_refl).
Defined.

End AuthFacts.

(** ** Rounding a macro *)

Module JSFacts.

Import JS.

Lemma isInteger_inject_Z z : isInteger (Fin (inject_Z z)) = true.
Proof.
  unfold isInteger. rewrite Qfloor_Z. apply Qeq_bool_iff. reflexivity.
Qed.

(** [|| 0] keeps an integer an integer. *)
Lemma or_zero_inject_Z z : exists z', or_zero (Fin (inject_Z z)) = Fin (inject_Z z').
Proof.
  unfold or_zero. destruct (truthy (Fin (inject_Z z))).
  - exists z. reflexivity.
  - exists 0%Z. reflexivity.
Qed.

(** The four shapes of [Math.round(Number(v)) || 0]. *)
Lemma round_or_zero_shape S v :
  match Number S v with
  | NaN => round_or_zero S v = Fin 0%Q
  | PosInf => round_or_zero S v = PosInf
  | NegInf => round_or_zero S v = NegInf
  | Fin _ => exists z, round_or_zero S v = Fin (inject_Z z)
  end.
Proof.
  unfold round_or_zero. destruct (Number S v) as [| | |q]; try reflexivity.
  apply or_zero_inject_Z.
Qed.

End JSFacts.

(** ** Saving a meal *)

Module ResultsFacts.

Import Results Trace.

(** Every way the outside can answer a run. *)
Ltac answers w st :=
  destruct w as [s2n [gs ss da] up gu rp ins nw];
  destruct st as [b [m d]];
  destruct gs; destruct ss; destruct m;
  destruct up; destruct gu as [[?|]|]; destruct rp; destruct ins.

Lemma handleSaveMeal_missing w result imageUri user :
  missing result imageUri user = true ->
  handleSaveMeal w result imageUri user = missing_data.
Proof.
  destruct result, imageUri as [i|], user; try reflexivity.
  unfold missing, handleSaveMeal, falsy_string. simpl.
  destruct (i =? "")%string; [reflexivity|discriminate].
Qed.

Lemma handleSaveMeal_save w result imageUri user :
  missing result imageUri user = false ->
  exists r i u,
    result = Some r /\ imageUri = Some i /\ user = Some u /\
    handleSaveMeal w result imageUri user = save w r i u.
Proof.
  destruct result as [r|], imageUri as [i|], user as [u|];
    unfold missing; simpl; rewrite ?orb_true_r; try discriminate.
  unfold handleSaveMeal, falsy_string. simpl.
  destruct (i =? "")%string; [discriminate|].
  intros _. exists r, i, u. repeat split.
Qed.

(** The calls of a run past the guard, in their order. *)
Lemma save_events w r i u st :
  events (save w r i u st) =
  [SetIsSaving true; Haptic ImpactMedium] ++
  events (Auth.syncSupabaseAuth (auth w) (clients st)) ++
  [UploadThumbnail i; GetUser] ++
  (if rpc_called w then
     [Rpc "insert_meal"
        (mkParams (name r) (thumbnail w) (macro w (calories r))
           (macro w (protein r)) (macro w (carbs r)) (macro w (fat r)))]
   else []) ++
  (if rpc_branch_fails w then
     [TableInsert "meals"
        (mkRow (name r) (id u) (macro w (calories r)) (macro w (protein r))
           (macro w (carbs r)) (macro w (fat r)) (thumbnail w) (now w))]
   else []) ++
  match (if rpc_branch_fails w then insert_error w else None) with
  | None =>
      [SetIsSaving false; Haptic NotifySuccess;
       AlertShown "Success" "Meal saved successfully"; RouterReplace "/(tabs)"]
  | Some e =>
      [Haptic NotifyError;
       AlertShown "Error"
         (String.append "Failed to save meal: " (message_or_unknown e));
       SetIsSaving false]
  end.
Proof.
  answers w st; reflexivity.
Qed.

(** The handler itself never rejects, and it leaves [isSaving] false. *)
Lemma save_settles w r i u st :
  res (save w r i u st) = Normal tt /\
  final (save w r i u st) =
    mkState false (final (Auth.syncSupabaseAuth (auth w) (clients st))).
Proof.
  answers w st; split; reflexivity.
Qed.

Lemma sync_no_write w c :
  filter is_write (events (Auth.syncSupabaseAuth w c)) = [] /\
  pipeline (events (Auth.syncSupabaseAuth w c)) = [].
Proof.
  rewrite AuthFacts.sync_events.
  destruct (Auth.getSession_rejects w), (Auth.main_session c); split; reflexivity.
Qed.

(** The writes of a run: the remote procedure when it is reached, then
    the table insert when the first block failed. *)
Lemma save_writes w r i u st :
  filter is_write (events (save w r i u st)) =
  (if rpc_called w then
     [Rpc "insert_meal"
        (mkParams (name r) (thumbnail w) (macro w (calories r))
           (macro w (protein r)) (macro w (carbs r)) (macro w (fat r)))]
   else []) ++
  (if rpc_branch_fails w then
     [TableInsert "meals"
        (mkRow (name r) (id u) (macro w (calories r)) (macro w (protein r))
           (macro w (carbs r)) (macro w (fat r)) (thumbnail w) (now w))]
   else []).
Proof.
  rewrite save_events. rewrite !filter_app.
  rewrite (proj1 (sync_no_write _ _)). simpl.
  destruct (rpc_called w), (rpc_branch_fails w); simpl;
    try destruct (insert_error w); reflexivity.
Qed.

Lemma save_pipeline w r i u st :
  pipeline (events (save w r i u st)) =
  StepUpload ::
  (if rpc_called w then [StepRpc] else []) ++
  (if rpc_branch_fails w then [StepTableInsert] else []).
Proof.
  rewrite save_events. rewrite !TraceFacts.pipeline_app.
  rewrite (proj2 (sync_no_write _ _)). simpl.
  destruct (rpc_called w), (rpc_branch_fails w); simpl;
    try destruct (insert_error w); reflexivity.
Qed.

(** A write of a run is one of the two of [save_writes]. *)
Lemma write_cases w r i u st ev :
  In ev (events (save w r i u st)) -> is_write ev = true ->
  (rpc_called w = true /\
   ev = Rpc "insert_meal"
          (mkParams (name r) (thumbnail w) (macro w (calories r))
             (macro w (protein r)) (macro w (carbs r)) (macro w (fat r)))) \/
  (rpc_branch_fails w = true /\
   ev = TableInsert "meals"
          (mkRow (name r) (id u) (macro w (calories r)) (macro w (protein r))
             (macro w (carbs r)) (macro w (fat r)) (thumbnail w) (now w))).
Proof.
  intros Hin Hw.
  assert (H : In ev (filter is_write (events (save w r i u st))))
    by (apply filter_In; split; assumption).
  rewrite save_writes in H. apply in_app_or in H.
  destruct H as [H|H]; [left|right].
  - destruct (rpc_called w); simpl in H; [|contradiction].
    destruct H as [H|[]]. split; [reflexivity|symmetry; exact H].
  - destruct (rpc_branch_fails w); simpl in H; [|contradiction].
    destruct H as [H|[]]. split; [reflexivity|symmetry; exact H].
Qed.

Lemma no_write_no_insert l :
  filter is_write l = [] -> existsb is_table_insert l = false.
Proof.
  induction l as [|ev l IH]; simpl; [reflexivity|].
  unfold is_write at 1.
  destruct (is_table_insert ev); [rewrite orb_true_r; discriminate|].
  rewrite orb_false_r. destruct (is_rpc ev); [discriminate|exact IH].
Qed.

(** C1: the remote procedure is the first write path and the table
    insert its fallback.  In a run past the guard, the table insert is
    attempted exactly once when something failed in the remote-procedure
    block ([getUser] rejected or gave no user, the procedure rejected or
    resolved with an error) and not at all otherwise; the procedure is
    called at most once, and never after a table insert. *)
Theorem fallback_iff_rpc_branch_fails w result imageUri user st :
  missing result imageUri user = false ->
  let evs := events (handleSaveMeal w result imageUri user st) in
  count is_table_insert evs = (if rpc_branch_fails w then 1 else 0) /\
  count is_rpc evs = (if rpc_called w then 1 else 0) /\
  (rpc_branch_fails w = false -> rpc_called w = true) /\
  (forall l1 ev l2,
     evs = l1 ++ ev :: l2 -> is_rpc ev = true ->
     existsb is_table_insert l1 = false).
Proof.
  intros Hdata.
  destruct (handleSaveMeal_save w _ _ _ Hdata) as (r & i & u & -> & -> & -> & ->).
  cbv zeta. repeat split.
  - rewrite save_events, !TraceFacts.count_app, AuthFacts.sync_events.
    destruct (Auth.getSession_rejects (auth w)), (Auth.main_session (clients st)),
      (rpc_called w), (rpc_branch_fails w); simpl;
      try destruct (insert_error w); reflexivity.
  - rewrite save_events, !TraceFacts.count_app, AuthFacts.sync_events.
    destruct (Auth.getSession_rejects (auth w)), (Auth.main_session (clients st)),
      (rpc_called w), (rpc_branch_fails w); simpl;
      try destruct (insert_error w); reflexivity.
  - unfold rpc_branch_fails, rpc_called.
    destruct (getUser_answer w) as [[?|]|]; [reflexivity|discriminate..].
  - intros l1 ev l2 Hsplit Hrpc.
    pose proof (save_writes w r i u st) as Hw.
    rewrite Hsplit, filter_app in Hw. simpl in Hw.
    unfold is_write at 2 in Hw. rewrite Hrpc in Hw. simpl in Hw.
    destruct (filter is_write l1) as [|x l] eqn:Hl1;
      [apply no_write_no_insert; exact Hl1|].
    exfalso.
    destruct (rpc_called w), (rpc_branch_fails w); simpl in Hw;
      try discriminate Hw.
    + injection Hw as _ Hw. destruct l; simpl in Hw.
      * injection Hw as Hev _. rewrite Hev in Hrpc. discriminate Hrpc.
      * destruct l; discriminate Hw.
    + injection Hw as _ Hw. destruct l; discriminate Hw.
    + injection Hw as _ Hw. destruct l; discriminate Hw.
Qed.

Lemma fallback_iff_rpc_branch_fails_witness :
  let run w := events (handleSaveMeal w (Some Sample.salad)
                         (Some "file:///meal.jpg") (Some Sample.user_a)
                         Sample.idle) in
  (count is_table_insert (run Sample.all_ok) = 0 /\
   count is_rpc (run Sample.all_ok) = 1) /\
  (count is_table_insert (run Sample.no_db_user) = 1 /\
   count is_rpc (run Sample.no_db_user) = 0) /\
  (count is_table_insert (run Sample.both_fail) = 1 /\
   count is_rpc (run Sample.both_fail) = 1).
Proof.
  intros run.
  pose proof (fallback_iff_rpc_branch_fails Sample.all_ok (Some Sample.salad)
                (Some "file:///meal.jpg") (Some Sample.user_a) Sample.idle
                eq_refl) as (H1 & H2 & _).
  pose proof (fallback_iff_rpc_branch_fails Sample.no_db_user (Some Sample.salad)
                (Some "file:///meal.jpg") (Some Sample.user_a) Sample.idle
                eq_refl) as (H3 & H4 & _).
  pose proof (fallback_iff_rpc_branch_fails Sample.both_fail (Some Sample.salad)
                (Some "file:///meal.jpg") (Some Sample.user_a) Sample.idle
                eq_refl) as (H5 & H6 & _).
  repeat split; assumption.
Defined.

(** Without the data the handler only shows the alert. *)
Lemma missing_run w result imageUri user st :
  missing result imageUri user = true ->
  handleSaveMeal w result imageUri user st =
  mkOutcome (Normal tt) st
    [AlertShown "Error" "Missing data required to save meal"].
Proof.
  intros H. rewrite handleSaveMeal_missing by exact H. reflexivity.
Qed.

(** What every write of any run carries. *)
Lemma writes_carry w result imageUri user st ev :
  In ev (events (handleSaveMeal w result imageUri user st)) ->
  is_write ev = true ->
  exists r u,
    result = Some r /\ user = Some u /\
    written_macros ev =
      map (macro w) [calories r; protein r; carbs r; fat r] /\
    written_thumbnail ev = Some (thumbnail w) /\
    (forall t row, ev = TableInsert t row -> row_user_id row = id u).
Proof.
  intros Hin Hw.
  destruct (missing result imageUri user) eqn:Hdata.
  - rewrite missing_run in Hin by exact Hdata. simpl in Hin.
    destruct Hin as [<-|[]]. discriminate Hw.
  - destruct (handleSaveMeal_save w _ _ _ Hdata)
      as (r & i & u & -> & -> & -> & Heq).
    rewrite Heq in Hin. exists r, u.
    destruct (write_cases _ _ _ _ _ _ Hin Hw) as [[_ ->]|[_ ->]];
      repeat split; try reflexivity.
    + intros t row H. discriminate H.
    + intros t row H. injection H as _ <-. reflexivity.
Qed.

(** C4: a write carries the four macros of the analysis result, and a
    meal is only saved for a signed-in user.  When the result, the image
    or the user of the auth context is missing, the handler shows the
    error alert, changes nothing and makes no network call, so no write.
    When all three are there the run does attempt a write; and every
    write any run makes carries [Math.round(Number(x)) || 0] of the
    calories, protein, carbs and fat of the result, in this order, the
    table row under the id of that user. *)
Theorem save_needs_data_and_carries_macros w result imageUri user st :
  (missing result imageUri user = true ->
   events (handleSaveMeal w result imageUri user st) =
     [AlertShown "Error" "Missing data required to save meal"] /\
   final (handleSaveMeal w result imageUri user st) = st /\
   existsb is_network (events (handleSaveMeal w result imageUri user st)) = false) /\
  (missing result imageUri user = false ->
   existsb is_write (events (handleSaveMeal w result imageUri user st)) = true) /\
  (forall ev,
     In ev (events (handleSaveMeal w result imageUri user st)) ->
     is_write ev = true ->
     exists r u,
       result = Some r /\ user = Some u /\
       written_macros ev =
         [JS.round_or_zero (StringToNumber w) (calories r);
          JS.round_or_zero (StringToNumber w) (protein r);
          JS.round_or_zero (StringToNumber w) (carbs r);
          JS.round_or_zero (StringToNumber w) (fat r)] /\
       (forall t row, ev = TableInsert t row -> row_user_id row = id u)).
Proof.
  split; [|split].
  - intros H. rewrite missing_run by exact H. repeat split.
  - intros Hdata.
    destruct (handleSaveMeal_save w _ _ _ Hdata) as (r & i & u & _ & _ & _ & ->).
    rewrite save_events, !existsb_app.
    unfold rpc_called, rpc_branch_fails.
    destruct (getUser_answer w) as [[?|]|]; simpl;
      rewrite ?orb_true_r; reflexivity.
  - intros ev Hin Hw.
    destruct (writes_carry _ _ _ _ _ _ Hin Hw) as (r & u & Hr & Hu & Hm & _ & Hid).
    exists r, u. repeat split; assumption.
Qed.

Lemma save_needs_data_and_carries_macros_witness :
  let signed_out :=
    handleSaveMeal Sample.all_ok (Some Sample.salad)
      (Some "file:///meal.jpg") None Sample.idle in
  let signed_in :=
    handleSaveMeal Sample.no_db_user (Some Sample.salad)
      (Some "file:///meal.jpg") (Some Sample.user_a) Sample.idle in
  let row :=
    mkRow "Salad" "user-a" (JS.Fin 251%Q) (JS.Fin 12%Q) (JS.Fin 0%Q)
      (JS.Fin 4%Q) "https://cdn.example/thumb.jpg"
      "2025-01-01T12:00:00.000Z" in
  (events signed_out =
     [AlertShown "Error" "Missing data required to save meal"] /\
   final signed_out = Sample.idle) /\
  existsb is_write (events signed_in) = true /\
  filter is_write (events signed_in) = [TableInsert "meals" row] /\
  exists r u,
    Some Sample.salad = Some r /\ Some Sample.user_a = Some u /\
    [JS.Fin 251%Q; JS.Fin 12%Q; JS.Fin 0%Q; JS.Fin 4%Q] =
      [JS.round_or_zero Sample.no_numeric_strings (calories r);
       JS.round_or_zero Sample.no_numeric_strings (protein r);
       JS.round_or_zero Sample.no_numeric_strings (carbs r);
       JS.round_or_zero Sample.no_numeric_strings (fat r)] /\
    "user-a" = id u.
Proof.
  intros signed_out signed_in row.
  destruct (save_needs_data_and_carries_macros Sample.all_ok
              (Some Sample.salad) (Some "file:///meal.jpg") None Sample.idle)
    as (Hout & _ & _).
  destruct (save_needs_data_and_carries_macros Sample.no_db_user
              (Some Sample.salad) (Some "file:///meal.jpg")
              (Some Sample.user_a) Sample.idle)
    as (_ & Hwrite & Hcarry).
  destruct (Hout eq_refl) as (H1 & H2 & _).
  split; [split; assumption|].
  split; [exact (Hwrite eq_refl)|].
  split; [reflexivity|].
  destruct (Hcarry (TableInsert "meals" row)) as (r & u & Hr & Hu & Hm & Hid).
  - simpl. do 6 right. left. reflexivity.
  - reflexivity.
  - exists r, u. repeat split; try assumption.
    exact (Hid "meals" row eq_refl).
Defined.

(** C5: one try, one fallback.  When the remote-procedure block failed
    and the table insert fails too (it rejects, or resolves with an
    error), the handler goes straight from that insert to the error
    state: error haptic, error alert with the message of the insert's
    error, [isSaving] set back to false.  The run made one table insert
    and at most one procedure call, and the handler itself resolves. *)
Theorem fallback_failure_ends_in_error w result imageUri user st e :
  missing result imageUri user = false ->
  rpc_branch_fails w = true ->
  insert_error w = Some e ->
  (exists pre t row,
     events (handleSaveMeal w result imageUri user st) =
       pre ++
       [TableInsert t row;
        Haptic NotifyError;
        AlertShown "Error"
          (String.append "Failed to save meal: " (message_or_unknown e));
        SetIsSaving false]) /\
  isSaving (final (handleSaveMeal w result imageUri user st)) = false /\
  res (handleSaveMeal w result imageUri user st) = Normal tt /\
  count is_table_insert (events (handleSaveMeal w result imageUri user st)) = 1 /\
  count is_rpc (events (handleSaveMeal w result imageUri user st)) <= 1.
Proof.
  intros Hdata Hfail Herr.
  destruct (handleSaveMeal_save w _ _ _ Hdata) as (r & i & u & -> & -> & -> & ->).
  destruct (save_settles w r i u st) as [Hres Hfin].
  rewrite Hres, Hfin.
  repeat split.
  - rewrite save_events, Hfail, Herr.
    eexists
      ([SetIsSaving true; Haptic ImpactMedium] ++
       events (Auth.syncSupabaseAuth (auth w) (clients st)) ++
       [UploadThumbnail i; GetUser] ++
       (if rpc_called w then [_] else [])), _, _.
    rewrite <- !app_assoc. reflexivity.
  - rewrite save_events, !TraceFacts.count_app, AuthFacts.sync_events, Hfail, Herr.
    destruct (Auth.getSession_rejects (auth w)), (Auth.main_session (clients st)),
      (rpc_called w); reflexivity.
  - rewrite save_events, !TraceFacts.count_app, AuthFacts.sync_events, Hfail, Herr.
    destruct (Auth.getSession_rejects (auth w)), (Auth.main_session (clients st)),
      (rpc_called w); unfold count; simpl; lia.
Qed.

Lemma fallback_failure_ends_in_error_witness :
  let o := handleSaveMeal Sample.both_fail (Some Sample.salad)
             (Some "file:///meal.jpg") (Some Sample.user_a) Sample.idle in
  isSaving (final o) = false /\
  res o = Normal tt /\
  count is_table_insert (events o) = 1 /\
  count is_rpc (events o) <= 1.
Proof.
  intros o.
  destruct (fallback_failure_ends_in_error Sample.both_fail (Some Sample.salad)
              (Some "file:///meal.jpg") (Some Sample.user_a) Sample.idle
              Sample.network_down eq_refl eq_refl eq_refl) as (_ & H).
  exact H.
Defined.

(** C8: a failed upload does not stop the save.  When [uploadThumbnail]
    rejects in a run past the guard, the run still attempts a write, and
    every write it makes carries the placeholder as the thumbnail. *)
Theorem upload_failure_uses_placeholder w result imageUri user st e :
  missing result imageUri user = false ->
  uploadThumbnail_answer w = Throw e ->
  existsb is_write (events (handleSaveMeal w result imageUri user st)) = true /\
  (forall ev,
     In ev (events (handleSaveMeal w result imageUri user st)) ->
     is_write ev = true ->
     written_thumbnail ev =
       Some "https://via.placeholder.com/300x200?text=Upload+Failed").
Proof.
  intros Hdata Hup. split.
  - destruct (handleSaveMeal_save w _ _ _ Hdata) as (r & i & u & -> & -> & -> & ->).
    rewrite save_events, !existsb_app.
    unfold rpc_called, rpc_branch_fails.
    destruct (getUser_answer w) as [[?|]|]; simpl;
      rewrite ?orb_true_r; reflexivity.
  - intros ev Hin Hw.
    destruct (writes_carry _ _ _ _ _ _ Hin Hw) as (_ & _ & _ & _ & _ & Ht & _).
    rewrite Ht. unfold thumbnail. rewrite Hup. reflexivity.
Qed.

Lemma upload_failure_uses_placeholder_witness :
  let evs := events (handleSaveMeal Sample.upload_down (Some Sample.salad)
                       (Some "file:///meal.jpg") (Some Sample.user_a)
                       Sample.idle) in
  existsb is_write evs = true /\
  map written_thumbnail (filter is_write evs) =
    [Some "https://via.placeholder.com/300x200?text=Upload+Failed"].
Proof.
  intros evs.
  destruct (upload_failure_uses_placeholder Sample.upload_down
              (Some Sample.salad) (Some "file:///meal.jpg")
              (Some Sample.user_a) Sample.idle Sample.network_down
              eq_refl eq_refl) as [H _].
  split; [exact H | reflexivity].
Defined.

(** C9 as stated fails: with [Infinity] for the calories, the value
    written is [Infinity], which is not an integer. *)
Lemma macro_infinity_counterexample :
  let evs := events (handleSaveMeal Sample.all_ok (Some Sample.endless)
                       (Some "file:///meal.jpg") (Some Sample.user_a)
                       Sample.idle) in
  map written_macros (filter is_write evs) =
    [[JS.PosInf; JS.Fin 30%Q; JS.Fin 40%Q; JS.Fin 20%Q]] /\
  JS.isInteger JS.PosInf = false.
Proof.
  split; reflexivity.
Qed.

(** C9, amended: in both write paths each macro written is
    [Math.round(Number(x)) || 0] of the result's field.  That value is [0]
    when [Number(x)] is NaN, as for a missing field; it is an integer when
    [Number(x)] is finite; and it is [Number(x)] itself, [Infinity] or
    [-Infinity], when [Number(x)] is infinite. *)
Theorem macros_rounded_or_zero :
  (forall w result imageUri user st ev,
     In ev (events (handleSaveMeal w result imageUri user st)) ->
     is_write ev = true ->
     exists r,
       result = Some r /\
       written_macros ev =
         map (JS.round_or_zero (StringToNumber w))
           [calories r; protein r; carbs r; fat r]) /\
  (forall S v,
     (JS.Number S v = JS.NaN -> JS.round_or_zero S v = JS.Fin 0%Q) /\
     (JS.isFinite (JS.Number S v) = true ->
      JS.isInteger (JS.round_or_zero S v) = true) /\
     (JS.Number S v = JS.PosInf -> JS.round_or_zero S v = JS.PosInf) /\
     (JS.Number S v = JS.NegInf -> JS.round_or_zero S v = JS.NegInf)) /\
  (forall S, JS.round_or_zero S JS.VUndefined = JS.Fin 0%Q).
Proof.
  split; [|split].
  - intros w result imageUri user st ev Hin Hw.
    destruct (writes_carry _ _ _ _ _ _ Hin Hw) as (r & _ & Hr & _ & Hm & _).
    exists r. split; assumption.
  - intros S v. pose proof (JSFacts.round_or_zero_shape S v) as H.
    destruct (JS.Number S v) as [| | |q]; repeat split;
      intros H'; try discriminate H'; try exact H.
    destruct H as [z ->]. apply JSFacts.isInteger_inject_Z.
  - reflexivity.
Qed.

Lemma macros_rounded_or_zero_witness :
  map written_macros
    (filter is_write
       (events (handleSaveMeal Sample.no_db_user (Some Sample.salad)
                  (Some "file:///meal.jpg") (Some Sample.user_a) Sample.idle))) =
    [[JS.Fin 251%Q; JS.Fin 12%Q; JS.Fin 0%Q; JS.Fin 4%Q]] /\
  JS.isInteger (JS.round_or_zero Sample.no_numeric_strings
                  (JS.VNumber (JS.Fin (2505 # 10)%Q))) = true.
Proof.
  destruct macros_rounded_or_zero as (_ & H & _).
  destruct (H Sample.no_numeric_strings (JS.VNumber (JS.Fin (2505 # 10)%Q)))
    as (_ & Hint & _).
  split; [reflexivity | apply Hint; reflexivity].
Defined.

End ResultsFacts.

(** ** The camera screen *)

Module CameraFacts.

Import Camera Trace.

Ltac camera_cases s :=
  destruct s as [[[|]|] hm [[|]|] [|] ic ia [img|]].

Ltac settle :=
  cbn; repeat split; intros; try discriminate; try congruence; auto.

Lemma mount_effect_well_behaved w : App.well_behaved (mount_effect w).
Proof.
  intros s. destruct w as [[[|]|] [[|]|] [?|] [?|] lp tp pr];
    camera_cases s; settle.
Qed.

Lemma takePicture_well_behaved w : App.well_behaved (takePicture w).
Proof.
  intros s. destruct w as [p rp ml ip lp [?|] pr]; camera_cases s; settle.
Qed.

Lemma handleGalleryOpen_well_behaved w : App.well_behaved (handleGalleryOpen w).
Proof.
  intros s.
  destruct w as [p rp ml [[[|] ?]|] [[[|] [[|? ?]|]]|] tp pr];
    camera_cases s; settle.
Qed.

Lemma handleRetake_well_behaved : App.well_behaved handleRetake.
Proof.
  intros s. camera_cases s; settle.
Qed.

Lemma retake_timeout_well_behaved : App.well_behaved retake_timeout.
Proof.
  intros s. camera_cases s; settle.
Qed.

Lemma handleAnalyzeImage_well_behaved w : App.well_behaved (handleAnalyzeImage w).
Proof.
  intros s. destruct w as [p rp ml ip lp tp [?|]]; camera_cases s; settle.
Qed.

(** The permission flag is set to [true] only when the hook or the
    request reported the permission granted. *)
Lemma mount_effect_granted w s :
  existsb is_permission_granted (events (mount_effect w s)) = true ->
  permission w = Some true \/
  (permission w = None /\ requestPermission_answer w = Normal true).
Proof.
  destruct w as [[[|]|] [[|]|] [?|] [?|] lp tp pr]; cbn; intros H;
    try discriminate H; auto.
Qed.

End CameraFacts.

(** ** The application *)

Module AppFacts.

Import App Trace.

Lemma invariant_initial focused c : invariant (initial focused c).
Proof.
  split; simpl; try reflexivity; intros H; try discriminate H.
  all: exfalso; apply H; reflexivity.
Qed.

Lemma on_camera_invariant m s :
  well_behaved m -> invariant s -> invariant (on_camera m s).
Proof.
  intros Hm [I1 I2 I3 I4 I5].
  destruct (Hm (camera s)) as (Hup & Htake & Hperm & Himg & Hpush).
  split; unfold on_camera; simpl.
  - intros H. rewrite existsb_app.
    destruct (Himg H) as [H'|H']; [rewrite (I1 H')|rewrite H', orb_true_r];
      reflexivity.
  - intros H. rewrite existsb_app.
    destruct (pushed (events (m (camera s)))) eqn:Hp.
    + rewrite I1; [reflexivity|]. apply Hpush. discriminate.
    + rewrite (I2 H). reflexivity.
  - rewrite TraceFacts.preceded_app, I3. simpl.
    apply TraceFacts.preceded_absent. exact Hup.
  - intros H. rewrite existsb_app.
    destruct (Hperm H) as [H'|H']; [rewrite (I4 H')|rewrite H', orb_true_r];
      reflexivity.
  - rewrite TraceFacts.preceded_app, I5. simpl.
    destruct (existsb is_takePicture (events (m (camera s)))) eqn:Ht.
    + rewrite (I4 (Htake eq_refl)). apply TraceFacts.preceded_seen.
    + apply TraceFacts.preceded_absent. exact Ht.
Qed.

(** A save takes no picture. *)
Lemma save_takes_no_picture w result imageUri user st :
  existsb is_takePicture
    (events (Results.handleSaveMeal w result imageUri user st)) = false.
Proof.
  destruct (Results.missing result imageUri user) eqn:Hdata.
  - rewrite ResultsFacts.missing_run by exact Hdata. reflexivity.
  - destruct (ResultsFacts.handleSaveMeal_save w _ _ _ Hdata)
      as (r & i & u & _ & _ & _ & ->).
    rewrite ResultsFacts.save_events, !existsb_app, AuthFacts.sync_events.
    destruct (Auth.getSession_rejects (Results.auth w)),
      (Auth.main_session (Results.clients st)),
      (Results.rpc_called w), (Results.rpc_branch_fails w); simpl;
      try destruct (Results.insert_error w); reflexivity.
Qed.

Lemma step_invariant a s :
  opens_directly a = false -> invariant s -> invariant (step a s).
Proof.
  intros Ha I. destruct a; simpl; try discriminate Ha.
  - apply on_camera_invariant; [apply CameraFacts.mount_effect_well_behaved|exact I].
  - destruct I as [I1 I2 I3 I4 I5]. split; simpl; assumption.
  - apply on_camera_invariant; [apply CameraFacts.takePicture_well_behaved|exact I].
  - apply on_camera_invariant; [apply CameraFacts.handleGalleryOpen_well_behaved|exact I].
  - apply on_camera_invariant; [apply CameraFacts.handleRetake_well_behaved|exact I].
  - apply on_camera_invariant; [apply CameraFacts.retake_timeout_well_behaved|exact I].
  - apply on_camera_invariant; [apply CameraFacts.handleAnalyzeImage_well_behaved|exact I].
  - destruct (results s) as [sc|] eqn:Hsc; [|exact I].
    destruct I as [I1 I2 I3 I4 I5]. split; simpl; try assumption.
    intros _. apply I2. rewrite Hsc. discriminate.
  - destruct (results s) as [sc|] eqn:Hsc; [|exact I].
    destruct I as [I1 I2 I3 I4 I5].
    assert (Himg : existsb is_image_set (trace s) = true)
      by (apply I2; rewrite Hsc; discriminate).
    split; simpl.
    + intros H. rewrite existsb_app, Himg. reflexivity.
    + intros _. rewrite existsb_app, Himg. reflexivity.
    + rewrite TraceFacts.preceded_app, I3, Himg. simpl.
      apply TraceFacts.preceded_seen.
    + intros H. rewrite existsb_app, (I4 H). reflexivity.
    + rewrite TraceFacts.preceded_app, I5. simpl.
      apply TraceFacts.preceded_absent. apply save_takes_no_picture.
Qed.

Lemma run_invariant l s :
  from_camera l = true -> invariant s -> invariant (run l s).
Proof.
  revert s. induction l as [|a l IH]; intros s Hl I; simpl; [exact I|].
  simpl in Hl. apply andb_prop in Hl. destruct Hl as [Ha Hl].
  apply IH; [exact Hl|]. apply step_invariant; [|exact I].
  apply negb_true_iff. exact Ha.
Qed.

Lemma on_camera_permission m s :
  well_behaved m -> permission_invariant s ->
  permission_invariant (on_camera m s).
Proof.
  intros Hm [I4 I5].
  destruct (Hm (camera s)) as (_ & Htake & Hperm & _).
  split; unfold on_camera; simpl.
  - intros H. rewrite existsb_app.
    destruct (Hperm H) as [H'|H']; [rewrite (I4 H')|rewrite H', orb_true_r];
      reflexivity.
  - rewrite TraceFacts.preceded_app, I5. simpl.
    destruct (existsb is_takePicture (events (m (camera s)))) eqn:Ht.
    + rewrite (I4 (Htake eq_refl)). apply TraceFacts.preceded_seen.
    + apply TraceFacts.preceded_absent. exact Ht.
Qed.

Lemma step_permission a s :
  permission_invariant s -> permission_invariant (step a s).
Proof.
  intros I. destruct a; simpl.
  - apply on_camera_permission; [apply CameraFacts.mount_effect_well_behaved|exact I].
  - destruct I as [I4 I5]. split; simpl; assumption.
  - apply on_camera_permission; [apply CameraFacts.takePicture_well_behaved|exact I].
  - apply on_camera_permission; [apply CameraFacts.handleGalleryOpen_well_behaved|exact I].
  - apply on_camera_permission; [apply CameraFacts.handleRetake_well_behaved|exact I].
  - apply on_camera_permission; [apply CameraFacts.retake_timeout_well_behaved|exact I].
  - apply on_camera_permission; [apply CameraFacts.handleAnalyzeImage_well_behaved|exact I].
  - destruct (results s) as [sc|]; [|exact I].
    destruct I as [I4 I5]. split; simpl; assumption.
  - destruct (results s) as [sc|]; [|exact I].
    destruct I as [I4 I5]. split; simpl.
    + intros H. rewrite existsb_app, (I4 H). reflexivity.
    + rewrite TraceFacts.preceded_app, I5. simpl.
      apply TraceFacts.preceded_absent. apply save_takes_no_picture.
  - destruct I as [I4 I5]. split; simpl; assumption.
Qed.

Lemma run_permission l s :
  permission_invariant s -> permission_invariant (run l s).
Proof.
  revert s. induction l as [|a l IH]; intros s I; simpl; [exact I|].
  apply IH. apply step_permission. exact I.
Qed.

Lemma permission_initial focused c : permission_invariant (initial focused c).
Proof.
  split; simpl; [intros H; discriminate H|reflexivity].
Qed.

(** Why the entry matters: a results screen opened by its address saves,
    and so uploads, without any image having been captured or picked. *)
Lemma direct_open_uploads_without_image :
  let l := [OpenResults (Some "file:///meal.jpg");
            AnalysisDone (Some Sample.salad);
            SaveMeal Sample.all_ok (Some Sample.user_a)] in
  let tr := trace (run l (initial true Sample.signed_in)) in
  pipeline tr = [StepUpload; StepRpc] /\
  preceded is_image_set is_upload false tr = false.
Proof.
  split; reflexivity.
Qed.

(** C3 as stated fails: the db client knows no user, so the remote
    procedure is never called, and the table insert is attempted all the
    same, right after the upload. *)
Lemma insert_without_rpc_counterexample :
  let evs := events (Results.handleSaveMeal Sample.no_db_user
                       (Some Sample.salad) (Some "file:///meal.jpg")
                       (Some Sample.user_a) Sample.idle) in
  pipeline evs = [StepUpload; StepTableInsert] /\
  existsb is_table_insert evs = true /\
  existsb is_rpc evs = false /\
  preceded is_rpc is_table_insert false evs = false.
Proof.
  repeat split.
Qed.

(** C3, amended: the steps come in the order image, upload, remote
    procedure, table insert, except that the table insert does not need
    the procedure to have been called.  In every run of the application
    in which the results screen is entered through the push of the camera
    screen, an upload comes after an image was captured or picked; and a
    run of the save handler past its guard attempts the upload, then
    calls the remote procedure if [getUser] gave a user, then attempts
    the table insert exactly when the remote-procedure block failed, be
    it the procedure call or the [getUser] in front of it. *)
Theorem pipeline_order :
  (forall focused c l,
     from_camera l = true ->
     preceded is_image_set is_upload false
       (trace (run l (initial focused c))) = true) /\
  (forall w result imageUri user st,
     pipeline (events (Results.handleSaveMeal w result imageUri user st)) =
     if Results.missing result imageUri user then []
     else
       StepUpload ::
       (if Results.rpc_called w then [StepRpc] else []) ++
       (if Results.rpc_branch_fails w then [StepTableInsert] else [])).
Proof.
  split.
  - intros focused c l Hl.
    apply (upload_after_image _
             (run_invariant l _ Hl (invariant_initial focused c))).
  - intros w result imageUri user st.
    destruct (Results.missing result imageUri user) eqn:Hdata.
    + rewrite ResultsFacts.missing_run by exact Hdata. reflexivity.
    + destruct (ResultsFacts.handleSaveMeal_save w _ _ _ Hdata)
        as (r & i & u & _ & _ & _ & ->).
      apply ResultsFacts.save_pipeline.
Qed.

Lemma pipeline_order_witness :
  let l := [Mount Sample.camera_ok; TakePicture Sample.camera_ok;
            Analyze Sample.camera_ok; AnalysisDone (Some Sample.salad);
            SaveMeal Sample.both_fail (Some Sample.user_a)] in
  let tr := trace (run l (initial true Sample.signed_in)) in
  from_camera l = true /\
  pipeline tr = [StepUpload; StepRpc; StepTableInsert] /\
  preceded is_image_set is_upload false tr = true.
Proof.
  intros l tr. split; [reflexivity|]. split; [reflexivity|].
  apply (proj1 pipeline_order true Sample.signed_in l). reflexivity.
Defined.

(** C7: the camera is only used with the permission.  While the
    permission flag is unknown the loading view is returned, while it is
    [false] the permission request, and neither holds the camera; the
    view holds the camera, and [takePicture] reaches [takePictureAsync],
    only in a state whose flag is [true]; the flag is set to [true] only
    when the permission was reported granted; and in every run of the
    application a [takePictureAsync] call comes after the flag was set to
    [true]. *)
Theorem capture_needs_permission :
  (forall s,
     Camera.hasCameraPermission s = None ->
     Camera.render s = Camera.PermissionLoading) /\
  (forall s,
     Camera.hasCameraPermission s = Some false ->
     Camera.render s = Camera.PermissionRequest) /\
  (forall s,
     Camera.shows_camera (Camera.render s) = true ->
     Camera.hasCameraPermission s = Some true) /\
  (forall w s,
     existsb is_takePicture (events (Camera.takePicture w s)) = true ->
     Camera.hasCameraPermission s = Some true) /\
  (forall w s,
     existsb is_permission_granted (events (Camera.mount_effect w s)) = true ->
     Camera.permission w = Some true \/
     (Camera.permission w = None /\
      Camera.requestPermission_answer w = Normal true)) /\
  (forall focused c l,
     preceded is_permission_granted is_takePicture false
       (trace (run l (initial focused c))) = true).
Proof.
  repeat split.
  - intros s H. unfold Camera.render. rewrite H. reflexivity.
  - intros s H. unfold Camera.render. rewrite H. reflexivity.
  - intros s. unfold Camera.render.
    destruct (Camera.hasCameraPermission s) as [[|]|];
      [reflexivity|discriminate..].
  - intros w s. apply (CameraFacts.takePicture_well_behaved w s).
  - apply CameraFacts.mount_effect_granted.
  - intros focused c l.
    apply (picture_after_grant _
             (run_permission l _ (permission_initial focused c))).
Qed.

Lemma capture_needs_permission_witness :
  existsb is_takePicture
    (events (Camera.takePicture Sample.camera_ok Sample.camera_ready)) = true /\
  Camera.hasCameraPermission Sample.camera_ready = Some true /\
  Camera.render (Camera.initial true) = Camera.PermissionLoading.
Proof.
  destruct capture_needs_permission as (Hload & _ & _ & Htake & _).
  split; [reflexivity|]. split.
  - apply (Htake Sample.camera_ok). reflexivity.
  - apply Hload. reflexivity.
Defined.

End AppFacts.

(** ** One save at a time *)

Module SaveButtonFacts.

Import SaveButton Trace.

Lemma save_before_network w r i u st :
  before_network (events (Results.save w r i u st)) =
  [SetIsSaving true; Haptic ImpactMedium].
Proof.
  rewrite ResultsFacts.save_events, AuthFacts.sync_events. reflexivity.
Qed.

(** The part of a run from its first network call on: it is not empty
    and it leaves [isSaving] false, whatever the flag was. *)
Lemma save_from_network w r i u st :
  exists rest,
    from_network (events (Results.save w r i u st)) = GetSession :: rest /\
    forall b, apply_setIsSaving (GetSession :: rest) b = false.
Proof.
  rewrite ResultsFacts.save_events, AuthFacts.sync_events.
  eexists. split; [reflexivity|].
  intros b.
  destruct (Auth.getSession_rejects (Results.auth w)),
    (Auth.main_session (Results.clients st)),
    (Results.rpc_called w), (Results.rpc_branch_fails w); simpl;
    try destruct (Results.insert_error w); reflexivity.
Qed.

(** The buttons are disabled exactly while [isSaving] is true. *)
Lemma buttons_follow_isSaving imageUri isLoading result isSaving b :
  Results.render_actions imageUri isLoading result isSaving = Some b ->
  Results.save_disabled b = isSaving /\ Results.cancel_disabled b = isSaving.
Proof.
  unfold Results.render_actions.
  destruct (Results.falsy_string imageUri); [discriminate|].
  destruct (negb isLoading && Results.is_some result); [|discriminate].
  intros H. injection H as <-. split; reflexivity.
Qed.

Lemma save_enabled_idle u : save_enabled u = true -> isSaving u = false.
Proof.
  unfold save_enabled.
  destruct (Results.render_actions (imageUri u) (isLoading u) (result u)
              (isSaving u)) as [b|] eqn:Hb; [|discriminate].
  destruct (buttons_follow_isSaving _ _ _ _ _ Hb) as [<- _].
  intros H. apply negb_true_iff. exact H.
Qed.

Lemma step_one_at_a_time a u : one_at_a_time u -> one_at_a_time (step a u).
Proof.
  intros I. destruct a as [w c|n|loading r]; simpl.
  - destruct (save_enabled u) eqn:Hen; [|exact I].
    pose proof (save_enabled_idle u Hen) as Hidle.
    unfold one_at_a_time in I |- *.
    destruct (in_flight u) as [|run [|run' l]] eqn:Hfl;
      [|destruct I as [I _]; congruence|contradiction].
    simpl.
    destruct (Results.missing (result u) (imageUri u) (user u)) eqn:Hdata.
    + rewrite ResultsFacts.missing_run by exact Hdata. exact Logic.I.
    + destruct (ResultsFacts.handleSaveMeal_save w _ _ _ Hdata)
        as (r & i & us & _ & _ & _ & ->).
      destruct (save_from_network w r i us (Results.mkState (isSaving u) c))
        as (rest & -> & Hrest).
      rewrite save_before_network. split; [reflexivity|exact Hrest].
  - unfold one_at_a_time in I |- *.
    destruct (in_flight u) as [|run [|run' l]] eqn:Hfl; [| |contradiction].
    + destruct n; simpl; rewrite Hfl; exact Logic.I.
    + destruct n as [|n]; simpl.
      * exact Logic.I.
      * destruct n; simpl; rewrite Hfl; exact I.
  - exact I.
Qed.

Lemma run_one_at_a_time l u : one_at_a_time u -> one_at_a_time (run l u).
Proof.
  revert u. induction l as [|a l IH]; intros u I; simpl; [exact I|].
  apply IH. apply step_one_at_a_time. exact I.
Qed.

Lemma at_index_Forall (P : ui -> Prop) i f l :
  (forall u, P u -> P (f u)) -> Forall P l -> Forall P (Screens.at_index i f l).
Proof.
  intros Hf. revert i. induction l as [|u l IH]; intros i Hl; simpl.
  - destruct i; constructor.
  - inversion Hl as [|? ? Hu Hrest]; subst.
    destruct i; constructor; auto.
Qed.

Lemma screens_one_at_a_time acts l :
  Forall one_at_a_time l -> Forall one_at_a_time (Screens.run acts l).
Proof.
  revert l. induction acts as [|a acts IH]; intros l Hl; simpl; [exact Hl|].
  apply IH. destruct a as [b|i n|imageUri user]; unfold Screens.step.
  - apply at_index_Forall; [apply step_one_at_a_time|exact Hl].
  - apply at_index_Forall; [apply step_one_at_a_time|exact Hl].
  - constructor; [exact Logic.I|exact Hl].
Qed.

Lemma one_at_a_time_bound u : one_at_a_time u -> length (in_flight u) <= 1.
Proof.
  unfold one_at_a_time. destruct (in_flight u) as [|x [|y l]]; simpl;
    [lia|lia|contradiction].
Qed.

(** C6, amended: a single save in flight on each screen.  A run past
    the guard sets [isSaving] to true before its first network call; both
    buttons are disabled exactly while [isSaving] is true; every run past
    the guard, whether the save succeeds or fails, leaves [isSaving]
    false; and, presses being delivered to the view rendered from the
    current state, each results screen has at most one save in flight
    whatever the user and the backend do, also when screens follow one
    another. *)
Theorem single_save_in_flight :
  (forall w result imageUri user st,
     Results.missing result imageUri user = false ->
     before_network (events (Results.handleSaveMeal w result imageUri user st)) =
       [SetIsSaving true; Haptic ImpactMedium] /\
     existsb is_network
       (events (Results.handleSaveMeal w result imageUri user st)) = true) /\
  (forall imageUri isLoading result isSaving b,
     Results.render_actions imageUri isLoading result isSaving = Some b ->
     Results.save_disabled b = isSaving /\
     Results.cancel_disabled b = isSaving) /\
  (forall w result imageUri user st,
     Results.missing result imageUri user = false ->
     Results.isSaving
       (final (Results.handleSaveMeal w result imageUri user st)) = false) /\
  (forall imageUri user l,
     length (in_flight (run l (mounted imageUri user))) <= 1) /\
  (forall imageUri user acts,
     Forall (fun u => length (in_flight u) <= 1)
       (Screens.run acts [mounted imageUri user])).
Proof.
  split; [|split; [|split; [|split]]].
  - intros w result imageUri user st Hdata.
    destruct (ResultsFacts.handleSaveMeal_save w _ _ _ Hdata)
      as (r & i & u & _ & _ & _ & ->).
    split; [apply save_before_network|].
    rewrite ResultsFacts.save_events, AuthFacts.sync_events. reflexivity.
  - apply buttons_follow_isSaving.
  - intros w result imageUri user st Hdata.
    destruct (ResultsFacts.handleSaveMeal_save w _ _ _ Hdata)
      as (r & i & u & _ & _ & _ & ->).
    rewrite (proj2 (ResultsFacts.save_settles w r i u st)). reflexivity.
  - intros imageUri user l.
    apply one_at_a_time_bound. apply run_one_at_a_time. exact Logic.I.
  - intros imageUri user acts.
    apply (Forall_impl _ one_at_a_time_bound).
    apply screens_one_at_a_time. constructor; [exact Logic.I|constructor].
Qed.

Lemma single_save_in_flight_witness :
  let l := [Analysis false (Some Sample.salad);
            PressSave Sample.all_ok Sample.signed_in;
            PressSave Sample.both_fail Sample.signed_in] in
  let u := run l (mounted (Some "file:///meal.jpg") (Some Sample.user_a)) in
  length (in_flight u) = 1 /\
  isSaving u = true /\
  length (in_flight (step (Settle 0) u)) <= 1 /\
  isSaving (step (Settle 0) u) = false.
Proof.
  intros l u.
  destruct single_save_in_flight as (_ & _ & _ & H & _).
  repeat split; try reflexivity.
  apply (H (Some "file:///meal.jpg") (Some Sample.user_a) (l ++ [Settle 0])).
Defined.

(** C6 as stated fails: the user presses Save, leaves the screen by the
    back button of the header while that save is pending, comes to a new
    results screen and presses Save there: two saves are in flight. *)
Lemma two_saves_in_flight_counterexample :
  let acts :=
    [Screens.InFront (Analysis false (Some Sample.salad));
     Screens.InFront (PressSave Sample.all_ok Sample.signed_in);
     Screens.BackAndAgain (Some "file:///meal.jpg") (Some Sample.user_a);
     Screens.InFront (Analysis false (Some Sample.salad));
     Screens.InFront (PressSave Sample.all_ok Sample.signed_in)] in
  let l :=
    Screens.run acts [mounted (Some "file:///meal.jpg") (Some Sample.user_a)] in
  Screens.in_flight_total l = 2 /\
  map (fun u => length (in_flight u)) l = [1; 1].
Proof.
  split; reflexivity.
Qed.

End SaveButtonFacts.

(** * Further properties of the handlers *)

(** ** Saving, beyond the write paths *)

Module SaveOutcome.

Import Results Trace Reading.

(** The user is told exactly once how a press on Save ended: every run of
    [handleSaveMeal] shows exactly one alert.  It is the success alert,
    followed by the navigation to the dashboard, exactly when the data was
    there and one of the two writes went through. *)
Theorem one_alert_per_save w result imageUri user st :
  count is_alert (events (handleSaveMeal w result imageUri user st)) = 1 /\
  existsb is_success_alert (events (handleSaveMeal w result imageUri user st)) =
    negb (missing result imageUri user) && save_succeeds w /\
  existsb App.replaced (events (handleSaveMeal w result imageUri user st)) =
    negb (missing result imageUri user) && save_succeeds w.
Proof.
  destruct (missing result imageUri user) eqn:Hdata.
  - rewrite ResultsFacts.missing_run by exact Hdata. repeat split.
  - destruct (ResultsFacts.handleSaveMeal_save w _ _ _ Hdata)
      as (r & i & u & _ & _ & _ & ->).
    rewrite ResultsFacts.save_events, !TraceFacts.count_app, !existsb_app,
      AuthFacts.sync_events.
    unfold save_succeeds.
    destruct (Auth.getSession_rejects (auth w)),
      (Auth.main_session (clients st)), (rpc_called w),
      (rpc_branch_fails w); simpl;
      try destruct (insert_error w); repeat split.
Qed.

(** When a run makes both writes, the table row carries what the remote
    procedure was given: the same name, thumbnail and macros. *)
Theorem write_paths_agree w result imageUri user st fn a t row :
  In (Rpc fn a) (events (handleSaveMeal w result imageUri user st)) ->
  In (TableInsert t row) (events (handleSaveMeal w result imageUri user st)) ->
  row_name row = p_name a /\
  row_image_url row = p_thumbnail_url a /\
  written_macros (TableInsert t row) = written_macros (Rpc fn a).
Proof.
  intros Hrpc Hins.
  destruct (missing result imageUri user) eqn:Hdata.
  - rewrite ResultsFacts.missing_run in Hrpc by exact Hdata.
    destruct Hrpc as [H|[]]. discriminate H.
  - destruct (ResultsFacts.handleSaveMeal_save w _ _ _ Hdata)
      as (r & i & u & _ & _ & _ & Heq).
    rewrite Heq in Hrpc, Hins.
    destruct (ResultsFacts.write_cases _ _ _ _ _ _ Hrpc eq_refl)
      as [[_ H1]|[_ H1]]; [|discriminate H1].
    destruct (ResultsFacts.write_cases _ _ _ _ _ _ Hins eq_refl)
      as [[_ H2]|[_ H2]]; [discriminate H2|].
    injection H1 as _ ->. injection H2 as _ ->. repeat split.
Qed.

Lemma write_paths_agree_witness :
  exists a row,
    filter is_write
      (events (handleSaveMeal Sample.both_fail (Some Sample.salad)
                 (Some "file:///meal.jpg") (Some Sample.user_a) Sample.idle)) =
      [Rpc "insert_meal" a; TableInsert "meals" row] /\
    row_name row = p_name a /\
    row_image_url row = p_thumbnail_url a /\
    written_macros (TableInsert "meals" row) =
      written_macros (Rpc "insert_meal" a).
Proof.
  eexists _, _. split; [reflexivity|].
  apply (write_paths_agree Sample.both_fail (Some Sample.salad)
           (Some "file:///meal.jpg") (Some Sample.user_a) Sample.idle
           "insert_meal" _ "meals" _).
  - simpl. do 6 right. left. reflexivity.
  - simpl. do 7 right. left. reflexivity.
Defined.

(** The macro written for a finite estimate is an integer at most one
    half away from it. *)
Theorem macro_within_half w q :
  exists z,
    macro w (JS.VNumber (JS.Fin q)) = JS.Fin (inject_Z z) /\
    (q - (1 # 2) < inject_Z z)%Q /\
    (inject_Z z <= q + (1 # 2))%Q.
Proof.
  unfold macro, JS.round_or_zero, JS.or_zero, JS.Number, JS.Math_round,
    JS.truthy.
  pose proof (Qfloor_le (q + (1 # 2))%Q) as Hle.
  pose proof (Qlt_floor (q + (1 # 2))%Q) as Hlt.
  rewrite inject_Z_plus in Hlt.
  set (z := Qfloor (q + (1 # 2))%Q) in *.
  destruct (Qeq_bool (inject_Z z) 0%Q) eqn:Hz; cbn [negb].
  - apply Qeq_bool_iff in Hz. exists 0%Z. split; [reflexivity|].
    change (inject_Z 0) with 0%Q. change (inject_Z 1) with 1%Q in Hlt.
    split; lra.
  - exists z. split; [reflexivity|].
    change (inject_Z 1) with 1%Q in Hlt. split; lra.
Qed.

End SaveOutcome.


(** ** The camera handlers *)

Module CameraMore.

Import Camera Reading.

Ltac camera_state s :=
  destruct s as [[[|]|] hm [[|]|] [|] ic ia [img|]].

(** [takePicture] never rejects.  Without a mounted camera it does
    nothing at all; with one it ends with [isCapturing] false, holds the
    photo exactly when [takePictureAsync] resolved, and shows one alert
    exactly when it rejected. *)
Theorem takePicture_outcome w s :
  res (takePicture w s) = Normal tt /\
  (cameraRef_current s = false ->
   events (takePicture w s) = [] /\ final (takePicture w s) = s) /\
  (cameraRef_current s = true ->
   isCapturing (final (takePicture w s)) = false /\
   capturedImage (final (takePicture w s)) =
     match takePictureAsync_answer w with
     | Normal photo => Some photo
     | Throw _ => None
     end /\
   Trace.count is_alert (events (takePicture w s)) =
     match takePictureAsync_answer w with
     | Normal _ => 0
     | Throw _ => 1
     end).
Proof.
  split; [|split].
  - destruct w as [p rp ml ip lp [photo|e] pr]; camera_state s; reflexivity.
  - destruct w as [p rp ml ip lp [photo|e] pr]; camera_state s;
      cbn; intros H; try discriminate H; split; reflexivity.
  - destruct w as [p rp ml ip lp [photo|e] pr]; camera_state s;
      cbn; intros H; try discriminate H; repeat split.
Qed.

Lemma takePicture_outcome_witness :
  capturedImage (final (takePicture Sample.camera_ok Sample.camera_ready)) =
    Some Sample.photo /\
  isCapturing (final (takePicture Sample.camera_ok Sample.camera_ready)) = false.
Proof.
  destruct (takePicture_outcome Sample.camera_ok Sample.camera_ready)
    as (_ & _ & H).
  destruct (H eq_refl) as (H1 & H2 & _).
  split; assumption.
Defined.

Lemma or_default_nonzero n d : d <> 0%Z -> or_default n d <> 0%Z.
Proof.
  intros Hd. unfold or_default.
  destruct (n =? 0)%Z eqn:Hn; [exact Hd|].
  apply Z.eqb_neq. exact Hn.
Qed.

(** The handler sets at most one image, the first asset with its
    dimensions defaulted. *)
Lemma gallery_images w s :
  images_set (events (handleGalleryOpen w s)) = [] \/
  exists sel,
    images_set (events (handleGalleryOpen w s)) =
      [mkImage (uri sel) (or_default (width sel) 800)
         (or_default (height sel) 600)].
Proof.
  destruct w as [p rp ml [[[|] ?]|] [[[|] [[|sel ?]|]]|] tp pr];
    camera_state s; cbn; auto; right; exists sel; reflexivity.
Qed.

(** [handleGalleryOpen] never rejects; it opens the picker only with
    the gallery permission, held already or granted on request; and an
    image it sets never has a zero width or height. *)
Theorem gallery_needs_permission w s :
  res (handleGalleryOpen w s) = Normal tt /\
  (existsb is_launch (events (handleGalleryOpen w s)) = true ->
   hasGalleryPermission s = Some true \/
   exists r, imagePicker_answer w = Normal r /\ granted r = true) /\
  (forall img,
     In img (images_set (events (handleGalleryOpen w s))) ->
     width img <> 0%Z /\ height img <> 0%Z).
Proof.
  split; [|split].
  - destruct w as [p rp ml [[[|] ?]|] [[[|] [[|sel ?]|]]|] tp pr];
      camera_state s; reflexivity.
  - destruct w as [p rp ml [[[|] ?]|] [[[|] [[|sel ?]|]]|] tp pr];
      camera_state s; cbn; intros H; try discriminate H; eauto.
  - intros img Hin.
    destruct (gallery_images w s) as [H|[sel H]]; rewrite H in Hin.
    + destruct Hin.
    + destruct Hin as [<-|[]]. simpl.
      split; apply or_default_nonzero; discriminate.
Qed.

Lemma gallery_needs_permission_witness :
  existsb is_launch
    (events (handleGalleryOpen Sample.camera_ok Sample.camera_ready)) = true /\
  hasGalleryPermission Sample.camera_ready = Some true /\
  images_set (events (handleGalleryOpen Sample.camera_ok Sample.camera_ready)) =
    [Sample.photo].
Proof.
  destruct (gallery_needs_permission Sample.camera_ok Sample.camera_ready)
    as (_ & H & _).
  split; [reflexivity|]. split; [|reflexivity].
  destruct (H eq_refl) as [Hp|(r & Hr & Hg)]; [exact Hp|reflexivity].
Defined.

(** [handleAnalyzeImage] never rejects and keeps the captured image.  It
    navigates to the results exactly when there is an image and the
    processing resolves, and then with the processed uri; a failed
    processing sets [isAnalyzing] back to false. *)
Theorem analyze_navigates_when_processed w s :
  res (handleAnalyzeImage w s) = Normal tt /\
  capturedImage (final (handleAnalyzeImage w s)) = capturedImage s /\
  App.pushed (events (handleAnalyzeImage w s)) =
    match capturedImage s, processImageForAI_answer w with
    | Some _, Normal processed => Some processed
    | _, _ => None
    end /\
  isAnalyzing (final (handleAnalyzeImage w s)) =
    match capturedImage s, processImageForAI_answer w with
    | Some _, Normal _ => true
    | Some _, Throw _ => false
    | None, _ => isAnalyzing s
    end.
Proof.
  destruct w as [p rp ml ip lp tp [?|]]; camera_state s; repeat split.
Qed.

(** After a retake and its timer the screen shows the camera again. *)
Theorem retake_returns_to_camera s :
  hasCameraPermission s = Some true ->
  let s' := final (retake_timeout (final (handleRetake s))) in
  render s' = CameraScreen (isFocused s) /\
  capturedImage s' = None /\
  isAnalyzing s' = false.
Proof.
  camera_state s; intros H; try discriminate H; repeat split.
Qed.

Lemma retake_returns_to_camera_witness :
  let s := final (takePicture Sample.camera_ok Sample.camera_ready) in
  render s = ImagePreview "file:///photo.jpg" /\
  render (final (retake_timeout (final (handleRetake s)))) = CameraScreen true.
Proof.
  intros s. split; [reflexivity|].
  apply (retake_returns_to_camera s). reflexivity.
Defined.

(** The camera permission flag after the mount effect is what the hook
    or the request reported; a failure of the media library or gallery
    request afterwards does not take it back.  A freshly mounted screen
    stays on the loading view exactly when the hook had nothing and the
    request rejected. *)
Theorem mount_sets_camera_permission w s :
  hasCameraPermission (final (mount_effect w s)) =
    match permission w, requestPermission_answer w with
    | Some g, _ => Some g
    | None, Normal g => Some g
    | None, Throw _ => hasCameraPermission s
    end /\
  forall focused,
    render (final (mount_effect w (initial focused))) = PermissionLoading <->
    permission w = None /\ exists e, requestPermission_answer w = Throw e.
Proof.
  split.
  - destruct w as [[[|]|] [[|]|] [?|] [?|] lp tp pr]; camera_state s;
      reflexivity.
  - intros focused.
    destruct w as [[[|]|] [[|]|e] [?|] [?|] lp tp pr];
      cbn; split;
      try (intros H; discriminate H);
      try (intros [H _]; discriminate H);
      try (intros [_ [e' H]]; discriminate H);
      try (intros _; split; [reflexivity|exists e; reflexivity]);
      try reflexivity.
Qed.

(** The flash button goes round the three modes: three presses come
    back to where they started, fewer do not. *)
Theorem flash_cycles m :
  CameraActions.handleFlashToggle
    (CameraActions.handleFlashToggle (CameraActions.handleFlashToggle m)) = m /\
  CameraActions.handleFlashToggle m <> m /\
  CameraActions.handleFlashToggle (CameraActions.handleFlashToggle m) <> m.
Proof.
  destruct m; repeat split; discriminate.
Qed.

(** [handleSaveImage] never rejects and never changes the state.  Without
    a captured image it makes no call; with one it asks for that image to
    be saved and shows exactly one alert, whatever the answer. *)
Theorem save_image_one_alert w s :
  Proc.ended (CameraActions.handleSaveImage w s) = Normal tt /\
  Proc.after (CameraActions.handleSaveImage w s) = s /\
  match capturedImage s with
  | None => Proc.calls (CameraActions.handleSaveImage w s) = []
  | Some img =>
      exists rest,
        Proc.calls (CameraActions.handleSaveImage w s) =
          CameraActions.SaveImageToGallery (uri img) :: rest /\
        length (filter CameraActions.is_alert rest) = 1
  end.
Proof.
  destruct w as [[[|]|e]]; camera_state s; repeat split;
    eexists; split; reflexivity.
Qed.

End CameraMore.

(** ** The results screen apart from saving *)

Module ScreenFacts.

Import Screen.

(** [analyzeFood] never rejects, calls the analysis service once and
    always ends with [isLoading] false.  When the service resolves the
    error is cleared, the result is the new one and no alert is shown;
    when it rejects the error is set, one alert is shown and the result
    is the one the screen had before. *)
Theorem analysis_always_stops_loading w imageUri s :
  Proc.ended (analyzeFood w imageUri s) = Normal tt /\
  isLoading (Proc.after (analyzeFood w imageUri s)) = false /\
  filter is_analysis (Proc.calls (analyzeFood w imageUri s)) =
    [AnalyzeFoodImage imageUri] /\
  match analyzeFoodImage_answer w with
  | Normal r =>
      error (Proc.after (analyzeFood w imageUri s)) = None /\
      result (Proc.after (analyzeFood w imageUri s)) = Some r /\
      filter is_alert (Proc.calls (analyzeFood w imageUri s)) = []
  | Throw _ =>
      error (Proc.after (analyzeFood w imageUri s)) =
        Some "Failed to analyze the food image. Please try again." /\
      result (Proc.after (analyzeFood w imageUri s)) = result s /\
      length (filter is_alert (Proc.calls (analyzeFood w imageUri s))) = 1
  end.
Proof.
  destruct w as [[r|e]]; destruct s as [l err res0]; repeat split.
Qed.

(** The action buttons are only ever shown under a card that displays
    the result they would save: never under the spinner, never under the
    "no analysis" notice. *)
Theorem save_offered_for_shown_result imageUri s isSaving c b :
  content (render imageUri s isSaving) = Some (c, Some b) ->
  isLoading s = false /\
  exists r, result s = Some r /\ c = Details r.
Proof.
  unfold render, Results.render_actions, FoodAnalysisCard. simpl.
  destruct (Results.falsy_string imageUri); [discriminate|].
  destruct (isLoading s); [discriminate|].
  destruct (result s) as [r|]; [|discriminate].
  simpl. intros H. injection H as <- _.
  split; [reflexivity|]. exists r. split; reflexivity.
Qed.

Lemma save_offered_for_shown_result_witness :
  exists b,
    content (render (Some "file:///meal.jpg") MoreSamples.analysed false) =
      Some (Details Sample.salad, Some b) /\
    isLoading MoreSamples.analysed = false.
Proof.
  eexists. split; [reflexivity|].
  refine (proj1 (save_offered_for_shown_result (Some "file:///meal.jpg")
                   MoreSamples.analysed false (Details Sample.salad) _ _)).
  reflexivity.
Defined.

(** Mounted without an image, the screen calls no analysis: it sets the
    error "No image provided", stops loading, and shows the retry button
    over the "no image" notice.  Pressing that button does call the
    analysis service, with the missing image. *)
Theorem mount_without_image w imageUri :
  Results.falsy_string imageUri = true ->
  let s := Proc.after (mount_effect w imageUri mounted) in
  filter is_analysis (Proc.calls (mount_effect w imageUri mounted)) = [] /\
  error s = Some "No image provided" /\
  isLoading s = false /\
  render imageUri s false = mkView true None /\
  filter is_analysis (Proc.calls (handleRetry w imageUri s)) =
    [AnalyzeFoodImage imageUri].
Proof.
  intros Hfalsy. unfold mount_effect, render. rewrite Hfalsy.
  destruct w as [[r|e]]; repeat split.
Qed.

Lemma mount_without_image_witness :
  let s := Proc.after (mount_effect MoreSamples.analysis_ok None mounted) in
  error s = Some "No image provided" /\ isLoading s = false.
Proof.
  intros s.
  destruct (mount_without_image MoreSamples.analysis_ok None eq_refl)
    as (_ & H1 & H2 & _).
  split; assumption.
Defined.

End ScreenFacts.

(** ** The auth context *)

Module AuthProviderFacts.

Import AuthProvider.

Ltac provider_cases w s :=
  destruct w as [si su so rp gu gs ma [gr sa ?]];
  destruct s as [? ? ? [? ?]];
  destruct gr; destruct sa; destruct ma.

(** [signIn] never rejects, and what it reports is the sign-in alone:
    the error [signInWithEmail] resolved or rejected with, or none.  The
    clients are synchronised exactly when the sign-in succeeded, and a
    failure of that synchronisation does not show in the result.  The
    user and session of the context are left to the listener. *)
Theorem signIn_reports_sign_in_only w email password s :
  Proc.ended (signIn w email password s) =
    Normal
      match signInWithEmail_answer w with
      | Normal r => response_error r
      | Throw e => Some e
      end /\
  existsb is_sync (Proc.calls (signIn w email password s)) =
    match signInWithEmail_answer w with
    | Normal r => negb (Results.is_some (response_error r))
    | Throw _ => false
    end /\
  user (Proc.after (signIn w email password s)) = user s /\
  session (Proc.after (signIn w email password s)) = session s.
Proof.
  provider_cases w s; destruct si as [[? ? [?|]]|?]; repeat split.
Qed.

(** [signUp] never rejects and reports the error of the sign-up.  It
    sets the user and the session of the context, both together, exactly
    when the answer holds a user; it never synchronises the clients. *)
Theorem signUp_sets_user_and_session w email password metadata_name s :
  Proc.ended (signUp w email password metadata_name s) =
    Normal
      match signUpWithEmail_answer w with
      | Normal r => response_error r
      | Throw e => Some e
      end /\
  (user (Proc.after (signUp w email password metadata_name s)),
   session (Proc.after (signUp w email password metadata_name s))) =
    match signUpWithEmail_answer w with
    | Normal (mkResponse (Some u) a _) => (Some u, a)
    | _ => (user s, session s)
    end /\
  existsb is_sync (Proc.calls (signUp w email password metadata_name s)) = false.
Proof.
  provider_cases w s; destruct su as [[[?|] ? ?]|?]; repeat split.
Qed.

(** [signOut] never rejects; it clears the user and the session of the
    context exactly when the sign-out resolved without an error, and
    leaves both as they were otherwise. *)
Theorem signOut_clears_on_success w s :
  Proc.ended (signOut w s) = Normal tt /\
  (user (Proc.after (signOut w s)), session (Proc.after (signOut w s))) =
    match signOut_answer w with
    | Normal None => (None, None)
    | _ => (user s, session s)
    end.
Proof.
  provider_cases w s; destruct so as [[?|]|?]; repeat split.
Qed.

(** [resetPassword] never rejects: it reports the error the request
    resolved or rejected with, asks for the redirect to the app's reset
    page, and leaves the user and session of the context alone. *)
Theorem resetPassword_reports_error w email s :
  Proc.ended (resetPassword w email s) =
    Normal
      match resetPasswordForEmail_answer w with
      | Normal err => err
      | Throw e => Some e
      end /\
  Proc.calls (resetPassword w email s) =
    [ResetPasswordForEmail email "foodnsap://reset-password"] /\
  user (Proc.after (resetPassword w email s)) = user s /\
  session (Proc.after (resetPassword w email s)) = session s.
Proof.
  provider_cases w s; destruct rp as [?|?]; repeat split.
Qed.

(** The fetch at mount never rejects and always ends the loading.  The
    user and the session are set together when both fetches resolve, and
    neither is set when one of them rejects. *)
Theorem fetch_sets_both_or_neither w s :
  Proc.ended (fetchUserAndSession w s) = Normal tt /\
  isLoading (Proc.after (fetchUserAndSession w s)) = false /\
  (user (Proc.after (fetchUserAndSession w s)),
   session (Proc.after (fetchUserAndSession w s))) =
    match getCurrentUser_answer w, getCurrentSession_answer w with
    | Normal u, Normal a => (u, a)
    | _, _ => (user s, session s)
    end.
Proof.
  provider_cases w s; destruct gu as [?|?]; destruct gs as [?|?];
    repeat split.
Qed.

(** The listener for auth state changes never rejects.  It makes the
    session of the context the one it is given and the user that
    session's user, or none; it synchronises the clients exactly when it
    is given a session, and touches neither client when it is given
    none. *)
Theorem listener_follows_session w a s :
  Proc.ended (onAuthStateChange w a s) = Normal tt /\
  session (Proc.after (onAuthStateChange w a s)) = a /\
  user (Proc.after (onAuthStateChange w a s)) =
    match a with
    | Some x => session_user x
    | None => None
    end /\
  existsb is_sync (Proc.calls (onAuthStateChange w a s)) = Results.is_some a /\
  (a = None -> clients (Proc.after (onAuthStateChange w a s)) = clients s).
Proof.
  destruct w as [si su so rp gu gs ma [[?|] [|?|?] ?]];
    destruct s as [? ? ? [[?|] ?]]; destruct a as [x|]; repeat split;
    intros H; (discriminate H || reflexivity).
Qed.

Lemma listener_follows_session_witness :
  let o := onAuthStateChange MoreSamples.provider_ok None
             MoreSamples.signed_in_context in
  user (Proc.after o) = None /\
  session (Proc.after o) = None /\
  clients (Proc.after o) = Sample.signed_in.
Proof.
  intros o.
  destruct (listener_follows_session MoreSamples.provider_ok None
              MoreSamples.signed_in_context) as (_ & H1 & H2 & _ & H3).
  split; [exact H2|]. split; [exact H1|exact (H3 eq_refl)].
Defined.

End AuthProviderFacts.

(** ** The root layout *)

Module LayoutFacts.

Import Layout.

(** The redirect of the root layout cannot loop.  While the auth state
    is loading the effect calls nothing; otherwise it replaces the route
    at most once, and run again on the route it went to, with the same
    user, it calls nothing. *)
Theorem redirect_settles :
  (forall user segments, RootLayoutNav_effect user true segments = []) /\
  (forall user segments,
     length (RootLayoutNav_effect user false segments) <= 1) /\
  (forall user segments path,
     In (RouterReplace path) (RootLayoutNav_effect user false segments) ->
     RootLayoutNav_effect user false (segments_of path) = []).
Proof.
  split; [reflexivity|]. split.
  - intros user segments. unfold RootLayoutNav_effect.
    destruct user, (inAuthGroup segments); simpl; lia.
  - intros user segments path. unfold RootLayoutNav_effect.
    destruct user, (inAuthGroup segments); simpl; intros H;
      try contradiction; destruct H as [H|[]];
      injection H as <-; reflexivity.
Qed.

Lemma redirect_settles_witness :
  RootLayoutNav_effect None false ["(tabs)"] =
    [RouterReplace "/(auth)/login"] /\
  segments_of "/(auth)/login" = ["(auth)"; "login"] /\
  RootLayoutNav_effect None false (segments_of "/(auth)/login") = [].
Proof.
  destruct redirect_settles as (_ & _ & H).
  split; [reflexivity|]. split; [reflexivity|].
  apply (H None ["(tabs)"] "/(auth)/login"). left. reflexivity.
Defined.

End LayoutFacts.

(** ** The save button at rest *)

Module SaveButtonMore.

Import SaveButton Trace.

Lemma step_rests a u :
  one_at_a_time u /\ (in_flight u = [] -> isSaving u = false) ->
  one_at_a_time (step a u) /\
  (in_flight (step a u) = [] -> isSaving (step a u) = false).
Proof.
  intros [I J]. split; [apply SaveButtonFacts.step_one_at_a_time; exact I|].
  destruct a as [w c|n|loading r]; simpl.
  - destruct (save_enabled u) eqn:Hen; [|exact J].
    pose proof (SaveButtonFacts.save_enabled_idle u Hen) as Hidle.
    simpl.
    destruct (Results.missing (result u) (imageUri u) (user u)) eqn:Hdata.
    + rewrite ResultsFacts.missing_run by exact Hdata. simpl.
      intros _. exact Hidle.
    + destruct (ResultsFacts.handleSaveMeal_save w _ _ _ Hdata)
        as (r & i & us & _ & _ & _ & ->).
      destruct (SaveButtonFacts.save_from_network w r i us
                  (Results.mkState (isSaving u) c)) as (rest & -> & _).
      intros H. discriminate H.
  - unfold one_at_a_time in I.
    destruct (in_flight u) as [|run [|run' l]] eqn:Hfl; [| |contradiction].
    + destruct n; simpl; rewrite Hfl; exact J.
    + destruct n as [|n]; simpl.
      * intros _. apply I.
      * destruct n; simpl; rewrite Hfl; intros H; discriminate H.
  - exact J.
Qed.

(** The Save button is never left disabled: in every state the screen
    reaches, once no save is in flight [isSaving] is false. *)
Theorem save_button_rests imageUri user l :
  in_flight (run l (mounted imageUri user)) = [] ->
  isSaving (run l (mounted imageUri user)) = false.
Proof.
  assert (H : forall l u,
             one_at_a_time u /\ (in_flight u = [] -> isSaving u = false) ->
             one_at_a_time (run l u) /\
             (in_flight (run l u) = [] -> isSaving (run l u) = false)).
  { clear l. intros l. induction l as [|a l IH]; intros u Hu; simpl;
      [exact Hu|]. apply IH. apply step_rests. exact Hu. }
  apply H. split; [exact Logic.I|reflexivity].
Qed.

Lemma save_button_rests_witness :
  let l := [Analysis false (Some Sample.salad);
            PressSave Sample.both_fail Sample.signed_in; Settle 0] in
  isSaving (run l (mounted (Some "file:///meal.jpg") (Some Sample.user_a))) =
    false.
Proof.
  intros l.
  apply (save_button_rests (Some "file:///meal.jpg") (Some Sample.user_a) l).
  reflexivity.
Defined.

End SaveButtonMore.

